(** * UF2 erase-block tool: a shallow embedding of
    [releases/41_blackbird/util/add_uf2_erase_block.py]

    The script reads a UF2 firmware image, rewrites the total-block counter
    of every 512-byte frame it contains, appends 64 frames that overwrite the
    user-script flash area with [0xFF], and writes the result.

    Python integers are modelled as [Z], [bytes]/[bytearray] values as lists
    of [byte], exceptions as the error side of a small result monad, and the
    script's input and output as a tree of file and print operations that is
    run against an arbitrary operating system.

    The pure formatter [bytecode_to_c_array] of [lua2header.py], which turns
    a byte string into the text of a C array, is embedded next to it. *)

From Stdlib Require Import ZArith Lia.
From Stdlib Require Import Strings.Byte.
From stdpp Require Import base list gmap strings pretty.
From Stdlib Require Import Strings.Ascii.

Local Open Scope Z_scope.

(** ** Exceptions and the result monad *)

(** The exceptions a run can end with: those the script's own operations
    raise, those the operating system raises when a file is opened, read or
    written or a line is printed, and the one [sys.exit] raises. *)
Inductive exn : Type :=
  | struct_error          (* struct.pack_into: value or offset out of range *)
  | IndexError            (* item access out of range *)
  | FileNotFoundError     (* open: no such file or directory *)
  | IsADirectoryError     (* open: the path names a directory *)
  | PermissionError       (* open: access denied *)
  | OSError               (* any other error of the operating system *)
  | SystemExit (code : Z). (* sys.exit(code) *)

Inductive result (A : Type) : Type :=
  | Ok (a : A)
  | Raise (e : exn).
Arguments Ok {A} a.
Arguments Raise {A} e.

Definition bind {A B : Type} (m : result A) (k : A -> result B) : result B :=
  match m with
  | Ok a => k a
  | Raise e => Raise e
  end.

Notation "'let*' x ':=' m 'in' k" := (bind m (fun x => k))
  (at level 10, x name, m at level 100, k at level 200).

(** [for x in xs: s = body x s], stopping at the first exception. *)
Fixpoint for_each {A S : Type} (xs : list A) (body : A -> S -> result S) (s : S)
  : result S :=
  match xs with
  | [] => Ok s
  | x :: xs' => let* s' := body x s in for_each xs' body s'
  end.

(** Python's [range(n)]. *)
Definition range (n : Z) : list Z := map Z.of_nat (seq 0 (Z.to_nat n)).

(** A result is a failure when it raises some exception. *)
Definition fails {A : Type} (r : result A) : Prop := exists e, r = Raise e.

(** ** Bytes *)

Abbreviation bytes := (list byte).

Definition byte_of_Z (z : Z) : byte :=
  match Byte.of_N (Z.to_N (z mod 256)) with
  | Some b => b
  | None => x00
  end.

Definition Z_of_byte (b : byte) : Z := Z.of_N (Byte.to_N b).

(** [bytearray(n)]: [n] zero bytes. *)
Definition bytearray (n : nat) : bytes := replicate n x00.

(** [data[lo:hi]] for non-negative [lo] and [hi]; Python clamps both ends to
    the length of [data]. *)
Definition slice (data : bytes) (lo hi : Z) : bytes :=
  take (Z.to_nat (hi - lo)) (drop (Z.to_nat lo) data).

(** ** [struct] *)

(** The range of the format ["<I"]. *)
Definition in_u32 (v : Z) : bool := (0 <=? v) && (v <=? 0xFFFFFFFF).

(** The four bytes of [v], least significant first. *)
Definition le32 (v : Z) : bytes :=
  [byte_of_Z v; byte_of_Z (v / 256); byte_of_Z (v / 65536); byte_of_Z (v / 16777216)].

(** Overwrite [length w] bytes of [buffer] from [offset] on. *)
Definition splice (buffer : bytes) (offset : nat) (w : bytes) : bytes :=
  take offset buffer ++ w ++ drop (offset + length w) buffer.

(** [struct.pack_into("<I", buffer, offset, v)] for a non-negative [offset]:
    raises [struct.error] when [v] does not fit 32 unsigned bits or when the
    buffer has no room for four bytes at [offset]. *)
Definition pack_into_I (buffer : bytes) (offset : nat) (v : Z) : result bytes :=
  if in_u32 v then
    if (offset + 4 <=? length buffer)%nat then Ok (splice buffer offset (le32 v))
    else Raise struct_error
  else Raise struct_error.

(** [struct.unpack_from("<I", buffer, offset)[0]], the reading the UF2 format
    gives to a field; used to state what a frame holds. *)
Definition unpack_I (w : bytes) : Z :=
  match w with
  | [b0; b1; b2; b3] =>
      Z_of_byte b0 + 256 * Z_of_byte b1 + 65536 * Z_of_byte b2 + 16777216 * Z_of_byte b3
  | _ => 0
  end.

Definition unpack_from_I (buffer : bytes) (offset : nat) : Z :=
  unpack_I (take 4 (drop offset buffer)).

(** [block[i] = v] on a bytearray, for a non-negative index [i]. *)
Definition setitem (block : bytes) (i : Z) (v : byte) : result bytes :=
  if (Z.to_nat i <? length block)%nat then Ok (<[Z.to_nat i := v]> block)
  else Raise IndexError.

(** ** The script *)

Definition UF2_MAGIC_START0 : Z := 0x0A324655.
Definition UF2_MAGIC_START1 : Z := 0x9E5D5157.
Definition UF2_MAGIC_END : Z := 0x0AB16F30.

Definition USER_SCRIPT_OFFSET : Z := (2 * 1024 * 1024) - (16 * 1024).
Definition USER_SCRIPT_SIZE : Z := 16 * 1024.
Definition BLOCK_SIZE : Z := 256.

(** The family ID [create_erase_block] writes (RP2040). *)
Definition RP2040_FAMILY_ID : Z := 0xe48bff56.

(** Byte offsets of the fields of a frame. *)
Definition OFF_MAGIC_START0 : nat := 0.
Definition OFF_MAGIC_START1 : nat := 4.
Definition OFF_FLAGS : nat := 8.
Definition OFF_TARGET_ADDR : nat := 12.
Definition OFF_PAYLOAD_SIZE : nat := 16.
Definition OFF_BLOCK_NO : nat := 20.
Definition OFF_NUM_BLOCKS : nat := 24.
Definition OFF_FAMILY_ID : nat := 28.
Definition OFF_DATA : nat := 32.
Definition OFF_MAGIC_END : nat := 508.

Definition create_erase_block (target_addr block_num total_blocks : Z) : result bytes :=
  let block := bytearray 512 in
  let* block := pack_into_I block 0 UF2_MAGIC_START0 in
  let* block := pack_into_I block 4 UF2_MAGIC_START1 in
  let* block := pack_into_I block 8 0x2000 in
  let* block := pack_into_I block 12 target_addr in
  let* block := pack_into_I block 16 BLOCK_SIZE in
  let* block := pack_into_I block 20 block_num in
  let* block := pack_into_I block 24 total_blocks in
  let* block := pack_into_I block 28 RP2040_FAMILY_ID in
  let* block := for_each (range BLOCK_SIZE) (fun i block => setitem block (32 + i) xff) block in
  let* block := pack_into_I block (512 - 4) UF2_MAGIC_END in
  Ok block.

(** The first loop of [modify_uf2]: copy every whole frame of the input and
    overwrite its total-block counter. *)
Definition copy_original_blocks (original_data : bytes) (original_blocks total_blocks : Z)
    (blocks : list bytes) : result (list bytes) :=
  for_each (range original_blocks)
    (fun i blocks =>
       let block := slice original_data (i * 512) ((i + 1) * 512) in
       let* block := pack_into_I block 24 total_blocks in
       Ok (blocks ++ [block]))
    blocks.

(** The second loop of [modify_uf2], with the module constant
    [USER_SCRIPT_OFFSET] taken as the parameter [user_script_offset]. *)
Definition add_erase_blocks (user_script_offset : Z)
    (erase_blocks_needed original_blocks total_blocks : Z)
    (blocks : list bytes) : result (list bytes) :=
  for_each (range erase_blocks_needed)
    (fun i blocks =>
       let target_addr := 0x10000000 + user_script_offset + (i * BLOCK_SIZE) in
       let block_num := original_blocks + i in
       let* erase_block := create_erase_block target_addr block_num total_blocks in
       Ok (blocks ++ [erase_block]))
    blocks.

(** The list [blocks] that [modify_uf2] builds from the bytes it has read. *)
Definition modify_uf2_blocks (original_data : bytes) : result (list bytes) :=
  let original_blocks := Z.of_nat (length original_data) / 512 in
  let erase_blocks_needed := USER_SCRIPT_SIZE / BLOCK_SIZE in
  let total_blocks := original_blocks + erase_blocks_needed in
  let blocks := [] in
  let* blocks := copy_original_blocks original_data original_blocks total_blocks blocks in
  add_erase_blocks USER_SCRIPT_OFFSET erase_blocks_needed original_blocks total_blocks blocks.

(** The bytes [modify_uf2] writes: the blocks one after the other. *)
Definition modify_uf2_bytes (original_data : bytes) : result bytes :=
  let* blocks := modify_uf2_blocks original_data in
  Ok (concat blocks).

(** ** Input and output *)

(** What the script asks of its environment, at the level of its
    statements: [with open(path, 'rb') as f: f.read()], [with open(path,
    'wb') as f: for block in blocks: f.write(block)], and [print(line)]. *)
Inductive event : Type :=
  | Ev_read (path : string)
  | Ev_write (path : string) (blocks : list bytes)
  | Ev_print (line : string).

(** A script: its operations in order, each followed by what the script
    does next; a read hands the bytes of the file to the rest. *)
Inductive io (A : Type) : Type :=
  | Done (a : A)
  | Throw (e : exn)
  | Do_read (path : string) (k : bytes -> io A)
  | Do_write (path : string) (blocks : list bytes) (k : io A)
  | Do_print (line : string) (k : io A).
Arguments Done {A} a.
Arguments Throw {A} e.
Arguments Do_read {A} path k.
Arguments Do_write {A} path blocks k.
Arguments Do_print {A} line k.

(** An operating system: a state and the outcome of each operation in a
    state. Nothing is assumed of it: any operation may raise, and paths
    mean whatever the system makes them mean (two names may be one file). *)
Record runtime : Type := Runtime {
  rt_state : Type;
  rt_read : string -> rt_state -> result (bytes * rt_state);
  rt_write : string -> list bytes -> rt_state -> result rt_state;
  rt_print : string -> rt_state -> result rt_state
}.

(** A run: the operations attempted, in order, and how the run ends. The
    script catches no exception, so the first operation that raises is the
    last one attempted. *)
Fixpoint run {A : Type} (rt : runtime) (p : io A) (s : rt_state rt)
  : list event * result (A * rt_state rt) :=
  match p with
  | Done a => ([], Ok (a, s))
  | Throw e => ([], Raise e)
  | Do_read path k =>
      match rt_read rt path s with
      | Ok (data, s') => let '(evs, r) := run rt (k data) s' in (Ev_read path :: evs, r)
      | Raise e => ([Ev_read path], Raise e)
      end
  | Do_write path blocks k =>
      match rt_write rt path blocks s with
      | Ok s' => let '(evs, r) := run rt k s' in (Ev_write path blocks :: evs, r)
      | Raise e => ([Ev_write path blocks], Raise e)
      end
  | Do_print line k =>
      match rt_print rt line s with
      | Ok s' => let '(evs, r) := run rt k s' in (Ev_print line :: evs, r)
      | Raise e => ([Ev_print line], Raise e)
      end
  end.

Definition modify_uf2 (input_path output_path : string) : io unit :=
  Do_read input_path (fun original_data =>
    let original_blocks := Z.of_nat (length original_data) / 512 in
    let erase_blocks_needed := USER_SCRIPT_SIZE / BLOCK_SIZE in
    let total_blocks := original_blocks + erase_blocks_needed in
    match modify_uf2_blocks original_data with
    | Raise e => Throw e
    | Ok blocks =>
        Do_write output_path blocks
          (Do_print ("Added " +:+ pretty erase_blocks_needed +:+ " erase blocks to UF2")
             (Do_print ("Original: " +:+ pretty original_blocks +:+ " blocks, Modified: "
                          +:+ pretty total_blocks +:+ " blocks")
                (Done tt)))
    end).

(** ** Shapes and observations used by the statements *)

(** The frame [create_erase_block] returns, field by field. *)
Definition erase_frame (target_addr block_num total_blocks : Z) : bytes :=
  le32 UF2_MAGIC_START0 ++ le32 UF2_MAGIC_START1 ++ le32 0x2000 ++
  le32 target_addr ++ le32 BLOCK_SIZE ++ le32 block_num ++ le32 total_blocks ++
  le32 RP2040_FAMILY_ID ++ replicate 256 xff ++ replicate 220 x00 ++ le32 UF2_MAGIC_END.

Definition magic_start0 (f : bytes) : Z := unpack_from_I f OFF_MAGIC_START0.
Definition magic_start1 (f : bytes) : Z := unpack_from_I f OFF_MAGIC_START1.
Definition flags (f : bytes) : Z := unpack_from_I f OFF_FLAGS.
Definition target_address (f : bytes) : Z := unpack_from_I f OFF_TARGET_ADDR.
Definition payload_size (f : bytes) : Z := unpack_from_I f OFF_PAYLOAD_SIZE.
Definition block_index (f : bytes) : Z := unpack_from_I f OFF_BLOCK_NO.
Definition block_count (f : bytes) : Z := unpack_from_I f OFF_NUM_BLOCKS.
Definition family_id (f : bytes) : Z := unpack_from_I f OFF_FAMILY_ID.
Definition payload (f : bytes) : bytes := take 256 (drop OFF_DATA f).
Definition magic_end (f : bytes) : Z := unpack_from_I f OFF_MAGIC_END.

(** Frame [i] of a byte sequence: the slice the first loop takes. *)
Definition frame_at (data : bytes) (i : Z) : bytes :=
  slice data (i * 512) ((i + 1) * 512).

(** Frame [i] of the input with its total-block counter overwritten. *)
Definition recounted (data : bytes) (total_blocks : Z) (i : Z) : bytes :=
  splice (frame_at data i) OFF_NUM_BLOCKS (le32 total_blocks).

(** The base address of the erased range. *)
Definition erase_base (user_script_offset : Z) : Z := 0x10000000 + user_script_offset.

(** The blocks of the output: the recounted frames of the input, then the
    64 erase frames. *)
Definition output_blocks (data : bytes) : list bytes :=
  let k := Z.of_nat (length data) / 512 in
  map (recounted data (k + 64)) (range k)
  ++ map (fun i => erase_frame (erase_base USER_SCRIPT_OFFSET + i * BLOCK_SIZE) (k + i) (k + 64))
         (range 64).

(** The input without its trailing partial frame. *)
Definition whole_frames (data : bytes) : bytes :=
  take (512 * (length data / 512)) data.

(** A list of blocks is renumbered when every block carries its position and
    the length of the list. *)
Definition renumbered (blocks : list bytes) : Prop :=
  forall (i : nat) (f : bytes), blocks !! i = Some f ->
    block_index f = Z.of_nat i /\ block_count f = Z.of_nat (length blocks).

(** The two lines [modify_uf2] prints after writing. *)
Definition added_line : string :=
  "Added " +:+ pretty (USER_SCRIPT_SIZE / BLOCK_SIZE) +:+ " erase blocks to UF2".

Definition summary_line (original_data : bytes) : string :=
  "Original: " +:+ pretty (Z.of_nat (length original_data) / 512)
    +:+ " blocks, Modified: "
    +:+ pretty (Z.of_nat (length original_data) / 512 + USER_SCRIPT_SIZE / BLOCK_SIZE)
    +:+ " blocks".

(** The byte strings handed to the write operations of a run, in order. *)
Definition written (evs : list event) : list bytes :=
  omap (fun ev => match ev with
                  | Ev_write _ blocks => Some (concat blocks)
                  | _ => None
                  end) evs.

(** ** Sample images *)

(** A lone well-formed frame that calls itself block 5 of 6. *)
Definition stray_block_image : bytes := erase_frame 0x10000000 5 6.

(** One well-formed frame followed by one dangling byte: 513 bytes. *)
Definition dangling_image : bytes := erase_frame 0x10000000 0 1 ++ [x00].

(** One frame whose first magic word has its low byte zeroed; the second
    magic word and the trailing one are intact. *)
Definition bad_magic_image : bytes := <[0%nat := x00]> (erase_frame 0x10000000 0 1).

(** One well-formed frame tagged with the family [0x12345678]. *)
Definition other_family_image : bytes :=
  splice (erase_frame 0x10000000 0 1) OFF_FAMILY_ID (le32 0x12345678).

(** A well-formed image of 100 blocks of the RP2040 family: 51200 bytes. *)
Definition image100 : bytes :=
  concat (map (fun i => erase_frame (0x10000000 + i * 256) i 100) (range 100)).

(** ** Sample operating systems *)

(** Two of the many possible systems, used as instances. In both, a state
    is a map from paths to contents and the lines printed so far, and a
    read of an absent path raises [FileNotFoundError]. In the first, every
    write succeeds and replaces the contents; in the second, every write is
    refused. *)
Definition flat_fs : runtime :=
  {| rt_state := gmap string bytes * list string;
     rt_read := fun path s =>
       match s.1 !! path with
       | Some data => Ok (data, s)
       | None => Raise FileNotFoundError
       end;
     rt_write := fun path blocks s => Ok (<[path := concat blocks]> s.1, s.2);
     rt_print := fun line s => Ok (s.1, s.2 ++ [line]) |}.

Definition read_only_fs : runtime :=
  {| rt_state := gmap string bytes * list string;
     rt_read := fun path s =>
       match s.1 !! path with
       | Some data => Ok (data, s)
       | None => Raise FileNotFoundError
       end;
     rt_write := fun _ _ _ => Raise PermissionError;
     rt_print := fun line s => Ok (s.1, s.2 ++ [line]) |}.

(** Two states that hold the same image under different names, next to
    different other files. *)
Definition state_a : gmap string bytes * list string :=
  ({[ "in.uf2"%string := stray_block_image ]}, []).

Definition state_b : gmap string bytes * list string :=
  ({[ "fw.uf2"%string := stray_block_image; "out.uf2"%string := [xff; xff] ]},
   ["building"%string]).

(** ** The command line *)

(** The [if __name__ == '__main__'] block, on [sys.argv]. With a wrong
    number of arguments the usage line names [sys.argv[0]], which raises
    [IndexError] when [sys.argv] is empty. *)
Definition main (argv : list string) : io unit :=
  if negb (length argv =? 3)%nat then
    match argv !! 0%nat with
    | Some prog =>
        Do_print ("Usage: " +:+ prog +:+ " <input.uf2> <output.uf2>")
          (Throw (SystemExit 1))
    | None => Throw IndexError
    end
  else
    match argv !! 1%nat, argv !! 2%nat with
    | Some input_path, Some output_path => modify_uf2 input_path output_path
    | _, _ => Throw IndexError
    end.

(** ** Well-formed images *)


(** Every whole frame of [data] carries its position as its index. *)
Definition well_numbered (data : bytes) : Prop :=
  forall i : nat, (i < length data / 512)%nat ->
    block_index (frame_at data (Z.of_nat i)) = Z.of_nat i.


(** ** [lua2header.py]: the C array of a byte string *)

(** Python's [range(start, stop, step)] for a positive [step]. *)
Definition range_step (start stop step : Z) : list Z :=
  map (fun j => start + Z.of_nat j * step)
      (seq 0 (Z.to_nat ((stop - start + step - 1) / step))).

(** The lower-case hexadecimal digits, in order. *)
Definition hex_digits : string := "0123456789abcdef".

(** The lower-case hexadecimal digit of a number below 16. *)
Definition hex_char (n : N) : ascii :=
  default "f"%char (String.get (N.to_nat n) hex_digits).

(** [f'{b:02x}'] for an element [b] of a bytes object: two digits. *)
Definition format_02x (b : byte) : string :=
  String (hex_char (Byte.to_N b / 16)) (String (hex_char (Byte.to_N b mod 16)) EmptyString).

(** The line feed character. *)
Definition newline : string := String "010"%char EmptyString.

(** The list [lines] that [bytecode_to_c_array] builds. *)
Definition bytecode_to_c_array_lines (bytecode : bytes) (var_name : string) : list string :=
  let len := Z.of_nat (length bytecode) in
  let lines := [] in
  let lines := lines ++ ["const unsigned char " +:+ var_name +:+ "[] = {"] in
  let lines :=
    fold_left
      (fun lines i =>
         let chunk := slice bytecode i (i + 12) in
         let hex_bytes := String.concat ", " (map (fun b => "0x" +:+ format_02x b) chunk) in
         lines ++ ["  " +:+ hex_bytes +:+ (if i + 12 <? len then "," else "")])
      (range_step 0 len 12) lines in
  let lines := lines ++ ["};"] in
  let lines := lines ++ ["const unsigned int " +:+ var_name +:+ "_len = " +:+ pretty len +:+ ";"] in
  lines.

Definition bytecode_to_c_array (bytecode : bytes) (var_name : string) : string :=
  String.concat newline (bytecode_to_c_array_lines bytecode var_name).

(** *** Reading a C array back *)

(** The value of a lower-case hexadecimal digit. *)
Definition unhex_char (c : ascii) : option N :=
  N.of_nat <$> String.index 0 (String c EmptyString) hex_digits.

(** The bytes of a list of entries [0xhh] separated by [", "], with or
    without a comma at the end. *)
Fixpoint parse_entries (s : string) : option (list byte) :=
  match s with
  | EmptyString => Some []
  | String "0" (String "x" (String h (String l rest))) =>
      match unhex_char h, unhex_char l with
      | Some hi, Some lo =>
          match Byte.of_N (16 * hi + lo) with
          | Some b =>
              match rest with
              | EmptyString => Some [b]
              | String "," EmptyString => Some [b]
              | String "," (String " " more) =>
                  match parse_entries more with
                  | Some bs => Some (b :: bs)
                  | None => None
                  end
              | _ => None
              end
          | None => None
          end
      | _, _ => None
      end
  | _ => None
  end%char.

(** The bytes of a data line: two spaces, then entries. *)
Definition parse_data_line (line : string) : option (list byte) :=
  match line with
  | String " " (String " " entries) => parse_entries entries
  | _ => None
  end%char.

(** The data lines of a C array: all lines but the first and the last two. *)
Definition data_lines (lines : list string) : list string :=
  take (length lines - 3) (drop 1 lines).

(** The last character of a string. *)
Fixpoint last_char (s : string) : option ascii :=
  match s with
  | EmptyString => None
  | String c EmptyString => Some c
  | String _ s' => last_char s'
  end.

(** The number of data lines: the length of the byte string over 12,
    rounded up. *)
Definition line_count (bytecode : bytes) : nat :=
  Z.to_nat ((Z.of_nat (length bytecode) + 11) / 12).

(** The chunk of the data line number [j]. *)
Definition chunk_at (bytecode : bytes) (j : nat) : bytes :=
  take 12 (drop (12 * j) bytecode).

(** The text of the data line number [j]. *)
Definition data_line (bytecode : bytes) (j : nat) : string :=
  "  " +:+ String.concat ", " (map (fun b => "0x" +:+ format_02x b) (chunk_at bytecode j))
       +:+ (if Z.of_nat j * 12 + 12 <? Z.of_nat (length bytecode) then "," else "").

(** * Properties *)

(** ** The result monad and loops *)

Lemma bind_Ok {A B : Type} (a : A) (k : A -> result B) : bind (Ok a) k = k a.
Proof. reflexivity. Qed.

Lemma fails_Ok {A : Type} (a : A) : ~ fails (Ok a).
Proof. intros [e He]. discriminate He. Qed.

Lemma length_range (n : Z) : length (range n) = Z.to_nat n.
Proof. unfold range. by rewrite length_map, length_seq. Qed.

Lemma lookup_range (n : Z) (i : nat) :
  (i < Z.to_nat n)%nat -> range n !! i = Some (Z.of_nat i).
Proof.
  intros Hi. unfold range. rewrite list_lookup_fmap, lookup_seq_lt by done. done.
Qed.

Lemma elem_of_range (n i : Z) : i ∈ range n <-> 0 <= i < n.
Proof.
  unfold range. rewrite list_elem_of_fmap. split.
  - intros (j & -> & Hj). apply elem_of_seq in Hj. lia.
  - intros Hi. exists (Z.to_nat i). split; [lia|]. apply elem_of_seq. lia.
Qed.

(** A loop whose body appends one computed element per round builds the
    image of the list it runs over. *)
Lemma for_each_append {A B : Type} (xs : list A) (f : A -> result B) (g : A -> B)
    (acc : list B) :
  (forall x, x ∈ xs -> f x = Ok (g x)) ->
  for_each xs (fun x acc => let* b := f x in Ok (acc ++ [b])) acc = Ok (acc ++ map g xs).
Proof.
  revert acc. induction xs as [|x xs IH]; intros acc Hf; simpl.
  - by rewrite app_nil_r.
  - rewrite (Hf x) by apply list_elem_of_here. simpl.
    rewrite IH by (intros y Hy; apply Hf; by apply list_elem_of_further).
    by rewrite <- app_assoc.
Qed.

(** The same loop raises what its body raises on the first element. *)
Lemma for_each_append_raise {A B : Type} (x : A) (xs : list A) (f : A -> result B)
    (e : exn) (acc : list B) :
  f x = Raise e ->
  for_each (x :: xs) (fun x acc => let* b := f x in Ok (acc ++ [b])) acc = Raise e.
Proof. intros Hf. simpl. by rewrite Hf. Qed.

(** ** Bytes and 32-bit fields *)

Lemma Z_of_byte_of_Z (z : Z) : Z_of_byte (byte_of_Z z) = z mod 256.
Proof.
  unfold Z_of_byte, byte_of_Z.
  assert (0 <= z mod 256 < 256) as Hr by (apply Z.mod_pos_bound; lia).
  destruct (Byte.of_N (Z.to_N (z mod 256))) as [b|] eqn:Hb.
  - apply Byte.to_of_N in Hb. rewrite Hb. lia.
  - apply Byte.of_N_None_iff in Hb. lia.
Qed.

Lemma Z_of_byte_range (b : byte) : 0 <= Z_of_byte b <= 255.
Proof.
  unfold Z_of_byte. pose proof (Byte.to_N_bounded b). lia.
Qed.

Lemma in_u32_true (v : Z) : in_u32 v = true <-> 0 <= v <= 0xFFFFFFFF.
Proof. unfold in_u32. rewrite andb_true_iff, !Z.leb_le. done. Qed.

Lemma in_u32_false (v : Z) : in_u32 v = false <-> ~ (0 <= v <= 0xFFFFFFFF).
Proof. rewrite <- in_u32_true. destruct (in_u32 v); split; congruence. Qed.

Lemma length_le32 (v : Z) : length (le32 v) = 4%nat.
Proof. reflexivity. Qed.

Lemma le32_shape (v : Z) : exists b0 b1 b2 b3, le32 v = [b0; b1; b2; b3].
Proof. unfold le32. eauto. Qed.

(** Packing then unpacking a value of the format's range gives it back. *)
Lemma unpack_le32 (v : Z) : 0 <= v <= 0xFFFFFFFF -> unpack_I (le32 v) = v.
Proof.
  intros Hv. unfold unpack_I, le32. rewrite !Z_of_byte_of_Z.
  Z.div_mod_to_equations. lia.
Qed.

Lemma length_splice (b : bytes) (off : nat) (w : bytes) :
  (off + length w <= length b)%nat -> length (splice b off w) = length b.
Proof.
  intros H. unfold splice. rewrite !length_app, length_take, length_drop. lia.
Qed.

(** Reading back the bytes just written. *)
Lemma splice_read (b : bytes) (off : nat) (w : bytes) :
  (off <= length b)%nat -> take (length w) (drop off (splice b off w)) = w.
Proof.
  intros H. unfold splice.
  rewrite drop_app_length' by (rewrite length_take; lia).
  by rewrite take_app_length.
Qed.

(** Bytes outside the written window keep their value. *)
Lemma lookup_splice_ne (b : bytes) (off : nat) (w : bytes) (j : nat) :
  (off + length w <= length b)%nat ->
  (j < off \/ off + length w <= j)%nat ->
  splice b off w !! j = b !! j.
Proof.
  intros Hlen Hj. unfold splice. destruct Hj as [Hj|Hj].
  - rewrite lookup_app_l by (rewrite length_take; lia).
    by rewrite lookup_take_lt.
  - rewrite lookup_app_r by (rewrite length_take; lia).
    rewrite lookup_app_r by (rewrite length_take; lia).
    rewrite lookup_drop, length_take. f_equal. lia.
Qed.

Lemma pack_into_I_ok (b : bytes) (off : nat) (v : Z) :
  0 <= v <= 0xFFFFFFFF -> (off + 4 <= length b)%nat ->
  pack_into_I b off v = Ok (splice b off (le32 v)).
Proof.
  intros Hv Hoff. unfold pack_into_I.
  rewrite (proj2 (in_u32_true v) Hv).
  by rewrite (proj2 (Nat.leb_le _ _) Hoff).
Qed.

Lemma pack_into_I_overflow (b : bytes) (off : nat) (v : Z) :
  ~ (0 <= v <= 0xFFFFFFFF) -> pack_into_I b off v = Raise struct_error.
Proof.
  intros Hv. unfold pack_into_I. by rewrite (proj2 (in_u32_false v) Hv).
Qed.

(** The field written by [pack_into_I] reads back as the value packed. *)
Lemma unpack_from_splice (b : bytes) (off : nat) (v : Z) :
  0 <= v <= 0xFFFFFFFF -> (off <= length b)%nat ->
  unpack_from_I (splice b off (le32 v)) off = v.
Proof.
  intros Hv Hoff. unfold unpack_from_I.
  change 4%nat with (length (le32 v)). rewrite splice_read by done.
  by apply unpack_le32.
Qed.

(** ** [create_erase_block] *)

Ltac name_le32 v :=
  let b0 := fresh "b" in let b1 := fresh "b" in
  let b2 := fresh "b" in let b3 := fresh "b" in
  let E := fresh "E" in
  destruct (le32_shape v) as (b0 & b1 & b2 & b3 & E).

Lemma create_erase_block_ok (target_addr block_num total_blocks : Z) :
  0 <= target_addr <= 0xFFFFFFFF ->
  0 <= block_num <= 0xFFFFFFFF ->
  0 <= total_blocks <= 0xFFFFFFFF ->
  create_erase_block target_addr block_num total_blocks
  = Ok (erase_frame target_addr block_num total_blocks).
Proof.
  intros Ha Hn Ht.
  apply in_u32_true in Ha, Hn, Ht.
  unfold create_erase_block, erase_frame, pack_into_I.
  rewrite Ha, Hn, Ht.
  name_le32 target_addr. name_le32 block_num. name_le32 total_blocks.
  rewrite E, E0, E1.
  vm_compute. reflexivity.
Qed.

(** If one of the three arguments is outside the range of ["<I"], the call
    raises [struct.error]. *)
Lemma create_erase_block_overflow (target_addr block_num total_blocks : Z) :
  ~ (0 <= target_addr <= 0xFFFFFFFF /\ 0 <= block_num <= 0xFFFFFFFF
     /\ 0 <= total_blocks <= 0xFFFFFFFF) ->
  create_erase_block target_addr block_num total_blocks = Raise struct_error.
Proof.
  intros Hr. unfold create_erase_block, pack_into_I.
  name_le32 target_addr. name_le32 block_num. rewrite E, E0.
  destruct (in_u32 target_addr) eqn:Ha; [|vm_compute; reflexivity].
  destruct (in_u32 block_num) eqn:Hn; [|vm_compute; reflexivity].
  destruct (in_u32 total_blocks) eqn:Ht; [|vm_compute; reflexivity].
  apply in_u32_true in Ha, Hn, Ht. tauto.
Qed.

(** *** The fields of a frame, as the UF2 layout places them *)

Ltac field_of_erase_frame :=
  unfold magic_start0, magic_start1, flags, target_address, payload_size,
    block_index, block_count, family_id, magic_end, unpack_from_I, erase_frame;
  cbn [le32 app firstn skipn
       OFF_MAGIC_START0 OFF_MAGIC_START1 OFF_FLAGS OFF_TARGET_ADDR OFF_PAYLOAD_SIZE
       OFF_BLOCK_NO OFF_NUM_BLOCKS OFF_FAMILY_ID].

Section erase_frame_fields.
Variables target_addr block_num total_blocks : Z.

Lemma length_erase_frame : length (erase_frame target_addr block_num total_blocks) = 512%nat.
Proof. reflexivity. Qed.

Lemma erase_frame_magic_start0 : magic_start0 (erase_frame target_addr block_num total_blocks) = UF2_MAGIC_START0.
Proof. reflexivity. Qed.

Lemma erase_frame_magic_start1 : magic_start1 (erase_frame target_addr block_num total_blocks) = UF2_MAGIC_START1.
Proof. reflexivity. Qed.

Lemma erase_frame_flags : flags (erase_frame target_addr block_num total_blocks) = 0x2000.
Proof. reflexivity. Qed.

Lemma erase_frame_payload_size : payload_size (erase_frame target_addr block_num total_blocks) = 256.
Proof. reflexivity. Qed.

Lemma erase_frame_family_id : family_id (erase_frame target_addr block_num total_blocks) = RP2040_FAMILY_ID.
Proof. reflexivity. Qed.

Lemma erase_frame_payload : payload (erase_frame target_addr block_num total_blocks) = replicate 256 xff.
Proof. reflexivity. Qed.

Lemma erase_frame_magic_end : magic_end (erase_frame target_addr block_num total_blocks) = UF2_MAGIC_END.
Proof. reflexivity. Qed.

Lemma erase_frame_target_address :
  0 <= target_addr <= 0xFFFFFFFF -> target_address (erase_frame target_addr block_num total_blocks) = target_addr.
Proof. intros H. field_of_erase_frame. by apply unpack_le32. Qed.

Lemma erase_frame_block_index :
  0 <= block_num <= 0xFFFFFFFF -> block_index (erase_frame target_addr block_num total_blocks) = block_num.
Proof. intros H. field_of_erase_frame. by apply unpack_le32. Qed.

Lemma erase_frame_block_count :
  0 <= total_blocks <= 0xFFFFFFFF -> block_count (erase_frame target_addr block_num total_blocks) = total_blocks.
Proof. intros H. field_of_erase_frame. by apply unpack_le32. Qed.
End erase_frame_fields.

(** ** [modify_uf2] *)

Lemma length_frame_at (data : bytes) (i : Z) :
  0 <= i < Z.of_nat (length data) / 512 -> length (frame_at data i) = 512%nat.
Proof.
  intros Hi. unfold frame_at, slice.
  rewrite length_take, length_drop.
  assert (512 * (Z.of_nat (length data) / 512) <= Z.of_nat (length data))
    by (apply Z.mul_div_le; lia).
  lia.
Qed.

Lemma length_recounted (data : bytes) (total_blocks i : Z) :
  0 <= i < Z.of_nat (length data) / 512 ->
  length (recounted data total_blocks i) = 512%nat.
Proof.
  intros Hi. unfold recounted.
  rewrite length_splice; rewrite length_frame_at by done; [done|].
  rewrite length_le32. unfold OFF_NUM_BLOCKS. lia.
Qed.

Lemma copy_original_blocks_ok (data : bytes) (total_blocks : Z) (acc : list bytes) :
  0 <= total_blocks <= 0xFFFFFFFF ->
  copy_original_blocks data (Z.of_nat (length data) / 512) total_blocks acc
  = Ok (acc ++ map (recounted data total_blocks) (range (Z.of_nat (length data) / 512))).
Proof.
  intros Ht. unfold copy_original_blocks.
  apply (for_each_append _
           (fun i => pack_into_I (slice data (i * 512) ((i + 1) * 512)) 24 total_blocks)).
  intros i Hi. apply elem_of_range in Hi.
  apply pack_into_I_ok; [done|].
  fold (frame_at data i). rewrite length_frame_at by done. lia.
Qed.

Lemma add_erase_blocks_ok (user_script_offset n original_blocks total_blocks : Z)
    (acc : list bytes) :
  0 <= erase_base user_script_offset ->
  erase_base user_script_offset + n * BLOCK_SIZE <= 0x100000000 ->
  0 <= original_blocks -> original_blocks + n <= 0x100000000 ->
  0 <= total_blocks <= 0xFFFFFFFF ->
  add_erase_blocks user_script_offset n original_blocks total_blocks acc
  = Ok (acc ++ map (fun i => erase_frame (erase_base user_script_offset + i * BLOCK_SIZE)
                                (original_blocks + i) total_blocks)
                   (range n)).
Proof.
  intros Hb Hend Hk Hkn Ht. unfold add_erase_blocks.
  apply (for_each_append _
           (fun i => create_erase_block
                       (0x10000000 + user_script_offset + i * BLOCK_SIZE)
                       (original_blocks + i) total_blocks)).
  intros i Hi. apply elem_of_range in Hi.
  unfold erase_base, BLOCK_SIZE in *.
  apply create_erase_block_ok; lia.
Qed.

Lemma modify_uf2_blocks_ok (data : bytes) :
  Z.of_nat (length data) / 512 + 64 <= 0xFFFFFFFF ->
  modify_uf2_blocks data = Ok (output_blocks data).
Proof.
  intros Hbound. unfold modify_uf2_blocks.
  assert (0 <= Z.of_nat (length data) / 512) by (apply Z.div_pos; lia).
  change (USER_SCRIPT_SIZE / BLOCK_SIZE) with 64.
  rewrite copy_original_blocks_ok by lia. rewrite bind_Ok.
  rewrite add_erase_blocks_ok; [done| | | | |];
    unfold erase_base, USER_SCRIPT_OFFSET, BLOCK_SIZE; lia.
Qed.

(** Beyond that bound the total no longer fits the counter field and the
    first [pack_into] raises. *)
Lemma modify_uf2_blocks_overflow (data : bytes) :
  0xFFFFFFFF < Z.of_nat (length data) / 512 + 64 ->
  modify_uf2_blocks data = Raise struct_error.
Proof.
  intros Hbig. unfold modify_uf2_blocks, copy_original_blocks.
  change (USER_SCRIPT_SIZE / BLOCK_SIZE) with 64.
  set (k := Z.of_nat (length data) / 512) in *.
  unfold range. destruct (Z.to_nat k) as [|n] eqn:Hk; [lia|].
  cbn [seq map for_each].
  rewrite pack_into_I_overflow by lia. reflexivity.
Qed.

(** *** The blocks of the output, by position *)

(** The number of whole frames of the input, as the script counts it and as
    a list position. *)
Lemma original_blocks_nat (data : bytes) :
  Z.of_nat (length data) / 512 = Z.of_nat (length data / 512).
Proof. by rewrite Nat2Z.inj_div. Qed.

Lemma length_output_blocks (data : bytes) :
  length (output_blocks data) = (length data / 512 + 64)%nat.
Proof.
  unfold output_blocks. rewrite length_app, !length_map, !length_range.
  rewrite original_blocks_nat. lia.
Qed.

Lemma output_blocks_original (data : bytes) (i : nat) :
  (i < length data / 512)%nat ->
  output_blocks data !! i
  = Some (recounted data (Z.of_nat (length data / 512) + 64) (Z.of_nat i)).
Proof.
  intros Hi. unfold output_blocks. rewrite original_blocks_nat.
  rewrite lookup_app_l by (rewrite length_map, length_range; lia).
  rewrite list_lookup_fmap, lookup_range by lia. done.
Qed.

Lemma output_blocks_erase (data : bytes) (i : nat) :
  (i < 64)%nat ->
  output_blocks data !! (length data / 512 + i)%nat
  = Some (erase_frame (erase_base USER_SCRIPT_OFFSET + Z.of_nat i * BLOCK_SIZE)
            (Z.of_nat (length data / 512) + Z.of_nat i)
            (Z.of_nat (length data / 512) + 64)).
Proof.
  intros Hi. unfold output_blocks. rewrite original_blocks_nat.
  rewrite lookup_app_r by (rewrite length_map, length_range; lia).
  rewrite length_map, length_range.
  replace (length data / 512 + i - Z.to_nat (Z.of_nat (length data / 512)))%nat
    with i by lia.
  rewrite list_lookup_fmap, lookup_range by lia. done.
Qed.

(** Every position of the output is an original position or an erase one. *)
Lemma output_blocks_position (data : bytes) (i : nat) :
  (i < length (output_blocks data))%nat ->
  (i < length data / 512)%nat
  \/ exists j, (j < 64)%nat /\ i = (length data / 512 + j)%nat.
Proof.
  rewrite length_output_blocks. intros Hi.
  destruct (decide (i < length data / 512)%nat) as [|Hge]; [by left|right].
  exists (i - length data / 512)%nat. lia.
Qed.

Lemma output_blocks_uniform (data : bytes) :
  Forall (fun f => length f = 512%nat) (output_blocks data).
Proof.
  unfold output_blocks. apply Forall_app. split; apply Forall_forall; intros f Hf;
    apply list_elem_of_fmap in Hf as (i & -> & Hi); [|done].
  apply elem_of_range in Hi. by apply length_recounted.
Qed.

(** The bytes of a field that lies outside the window written by [splice]
    are those of the buffer. *)
Lemma field_splice_ne (b : bytes) (off : nat) (w : bytes) (off' n : nat) :
  (off + length w <= length b)%nat ->
  (off' + n <= off \/ off + length w <= off')%nat ->
  take n (drop off' (splice b off w)) = take n (drop off' b).
Proof.
  intros Hlen Hdis. apply list_eq. intros j.
  destruct (decide (j < n)%nat) as [Hj|Hj].
  - rewrite !lookup_take_lt, !lookup_drop by done.
    apply lookup_splice_ne; [done|lia].
  - by rewrite !lookup_take_ge by lia.
Qed.

Lemma unpack_from_splice_ne (b : bytes) (off : nat) (w : bytes) (off' : nat) :
  (off + length w <= length b)%nat ->
  (off' + 4 <= off \/ off + length w <= off')%nat ->
  unpack_from_I (splice b off w) off' = unpack_from_I b off'.
Proof. intros Hlen Hdis. unfold unpack_from_I. by rewrite field_splice_ne. Qed.

(** Concatenating 512-byte blocks and cutting the result into frames gives
    the blocks back. *)
Lemma frame_at_concat (blocks : list bytes) (i : nat) (f : bytes) :
  Forall (fun f => length f = 512%nat) blocks ->
  blocks !! i = Some f ->
  frame_at (concat blocks) (Z.of_nat i) = f.
Proof.
  intros Hlen. revert i. induction Hlen as [|b bs Hb Hbs IH]; intros i Hi; [done|].
  unfold frame_at, slice in *. cbn [concat].
  replace (Z.to_nat ((Z.of_nat i + 1) * 512 - Z.of_nat i * 512)) with 512%nat in * by lia.
  destruct i as [|i]; simpl in Hi.
  - injection Hi as ->. change (Z.to_nat (Z.of_nat 0 * 512)) with 0%nat.
    rewrite drop_0. rewrite <- Hb. by rewrite take_app_length.
  - replace (Z.to_nat (Z.of_nat (S i) * 512)) with (length b + Z.to_nat (Z.of_nat i * 512))%nat
      by lia.
    rewrite drop_app_add'  by done.
    specialize (IH i Hi).
    replace (Z.to_nat ((Z.of_nat i + 1) * 512 - Z.of_nat i * 512)) with 512%nat in IH by lia.
    done.
Qed.

Lemma length_concat_uniform (blocks : list bytes) (n : nat) :
  Forall (fun f => length f = n) blocks ->
  length (concat blocks) = (n * length blocks)%nat.
Proof.
  induction 1 as [|b bs Hb Hbs IH]; [simpl; lia|].
  cbn [concat length]. rewrite length_app, IH, Hb. lia.
Qed.

(** *** The dangling bytes of the input *)

Lemma length_whole_frames (data : bytes) :
  length (whole_frames data) = (512 * (length data / 512))%nat.
Proof.
  unfold whole_frames. rewrite length_take.
  pose proof (Nat.Div0.mul_div_le (length data) 512). lia.
Qed.

Lemma whole_frames_count (data : bytes) :
  (length (whole_frames data) / 512 = length data / 512)%nat.
Proof.
  rewrite length_whole_frames, Nat.mul_comm. by apply Nat.div_mul.
Qed.

Lemma frame_at_whole_frames (data : bytes) (i : Z) :
  0 <= i < Z.of_nat (length data / 512) ->
  frame_at (whole_frames data) i = frame_at data i.
Proof.
  intros Hi. unfold frame_at, slice, whole_frames.
  rewrite skipn_firstn_comm, take_take. f_equal. lia.
Qed.

Lemma output_blocks_whole_frames (data : bytes) :
  output_blocks (whole_frames data) = output_blocks data.
Proof.
  unfold output_blocks.
  rewrite !original_blocks_nat, whole_frames_count. f_equal.
  apply list_fmap_ext. intros j i Hi.
  apply lookup_lt_Some in Hi as Hlt. rewrite length_range in Hlt.
  rewrite lookup_range in Hi by done. injection Hi as <-.
  unfold recounted. rewrite frame_at_whole_frames by lia. done.
Qed.

Lemma modify_uf2_bytes_ok (data : bytes) :
  Z.of_nat (length data / 512) + 64 <= 0xFFFFFFFF ->
  modify_uf2_bytes data = Ok (concat (output_blocks data)).
Proof.
  intros Hbound. unfold modify_uf2_bytes.
  rewrite modify_uf2_blocks_ok by (by rewrite original_blocks_nat). done.
Qed.

Lemma length_output_bytes (data : bytes) :
  length (concat (output_blocks data)) = (512 * (length data / 512 + 64))%nat.
Proof.
  rewrite (length_concat_uniform _ 512) by apply output_blocks_uniform.
  by rewrite length_output_blocks.
Qed.

(** *** What recounting a frame changes *)

Section recounted_frame.
Variable data : bytes.
Variables total_blocks i : Z.
Hypothesis Hi : 0 <= i < Z.of_nat (length data / 512).

Lemma recounted_room : (OFF_NUM_BLOCKS + length (le32 total_blocks) <= length (frame_at data i))%nat.
Proof.
  rewrite length_frame_at by (by rewrite original_blocks_nat).
  rewrite length_le32. unfold OFF_NUM_BLOCKS. lia.
Qed.

Lemma recounted_block_count :
  0 <= total_blocks <= 0xFFFFFFFF -> block_count (recounted data total_blocks i) = total_blocks.
Proof.
  intros Ht. unfold block_count, recounted. apply unpack_from_splice; [done|].
  pose proof recounted_room. lia.
Qed.

(** Outside offsets 24 to 27 the recounted frame is the input frame. *)
Lemma recounted_lookup_ne (j : nat) :
  (j < 24 \/ 28 <= j)%nat ->
  recounted data total_blocks i !! j = frame_at data i !! j.
Proof.
  intros Hj. unfold recounted. apply lookup_splice_ne; [apply recounted_room|].
  rewrite length_le32. unfold OFF_NUM_BLOCKS. lia.
Qed.

Lemma recounted_field_ne (off n : nat) :
  (off + n <= 24 \/ 28 <= off)%nat ->
  take n (drop off (recounted data total_blocks i)) = take n (drop off (frame_at data i)).
Proof.
  intros Hoff. unfold recounted. apply field_splice_ne; [apply recounted_room|].
  rewrite length_le32. unfold OFF_NUM_BLOCKS. lia.
Qed.

Lemma recounted_unpack_ne (off : nat) :
  (off + 4 <= 24 \/ 28 <= off)%nat ->
  unpack_from_I (recounted data total_blocks i) off = unpack_from_I (frame_at data i) off.
Proof. intros Hoff. unfold unpack_from_I. by rewrite recounted_field_ne. Qed.

End recounted_frame.

(** * The claims *)

(** ** Renumbering *)

(** C1, as stated, fails: on a one-frame image whose frame calls itself
    block 5, the output keeps 5 in the index field of the block at
    position 0, so the output is not renumbered. *)
Lemma renumbering_keeps_input_index :
  exists blocks f,
    modify_uf2_blocks stray_block_image = Ok blocks /\
    blocks !! 0%nat = Some f /\ block_index f = 5 /\ ~ renumbered blocks.
Proof.
  eexists; eexists. split; [vm_compute; reflexivity|].
  split; [reflexivity|]. split; [vm_compute; reflexivity|].
  intros Hren. destruct (Hren 0%nat _ eq_refl) as [Hidx _].
  vm_compute in Hidx. discriminate Hidx.
Qed.

(** C1, amended: for every input whose block total fits the 32-bit counter,
    the output has [n = k + 64] blocks; every block has [block_count = n];
    every block at a position [i >= k] (a synthesized one) has
    [block_index = i]; every block at a position [i < k] (an original one)
    keeps the [block_index] of the input frame at that position. *)
Theorem renumbering_of_output (data : bytes) :
  Z.of_nat (length data / 512) + 64 <= 0xFFFFFFFF ->
  exists blocks,
    modify_uf2_blocks data = Ok blocks /\
    length blocks = (length data / 512 + 64)%nat /\
    (forall (i : nat) (f : bytes), blocks !! i = Some f ->
       block_count f = Z.of_nat (length blocks)) /\
    (forall (i : nat) (f : bytes), (length data / 512 <= i)%nat -> blocks !! i = Some f ->
       block_index f = Z.of_nat i) /\
    (forall (i : nat) (f : bytes), (i < length data / 512)%nat -> blocks !! i = Some f ->
       block_index f = block_index (frame_at data (Z.of_nat i))).
Proof.
  intros Hbound. exists (output_blocks data).
  split; [apply modify_uf2_blocks_ok; by rewrite original_blocks_nat|].
  split; [apply length_output_blocks|].
  rewrite length_output_blocks. repeat split.
  - intros i f Hf. apply lookup_lt_Some in Hf as Hlt.
    destruct (output_blocks_position data i Hlt) as [Hi|(j & Hj & ->)].
    + rewrite output_blocks_original in Hf by done. apply (inj Some) in Hf; subst f.
      rewrite recounted_block_count by lia. lia.
    + rewrite output_blocks_erase in Hf by done. apply (inj Some) in Hf; subst f.
      rewrite erase_frame_block_count by lia. lia.
  - intros i f Hi Hf. apply lookup_lt_Some in Hf as Hlt.
    destruct (output_blocks_position data i Hlt) as [Hi'|(j & Hj & ->)]; [lia|].
    rewrite output_blocks_erase in Hf by done. apply (inj Some) in Hf; subst f.
    rewrite erase_frame_block_index by lia. lia.
  - intros i f Hi Hf.
    rewrite output_blocks_original in Hf by done. apply (inj Some) in Hf; subst f.
    unfold block_index. apply recounted_unpack_ne; [lia|].
    unfold OFF_BLOCK_NO. lia.
Qed.

(** The amended C1 at the one-frame image: one original block, which keeps
    the index 5, and 65 blocks in all. *)
Lemma renumbering_of_output_witness :
  Z.of_nat (length stray_block_image / 512) + 64 <= 0xFFFFFFFF /\
  exists blocks,
    modify_uf2_blocks stray_block_image = Ok blocks /\ length blocks = 65%nat.
Proof.
  assert (Z.of_nat (length stray_block_image / 512) + 64 <= 0xFFFFFFFF) as Hbound
    by (vm_compute; discriminate).
  split; [exact Hbound|].
  destruct (renumbering_of_output stray_block_image Hbound) as (blocks & Hrun & Hlen & _).
  exists blocks. split; [exact Hrun|exact Hlen].
Defined.

(** ** Input whose length is not a multiple of 512 *)

(** C2, as stated, fails: a 513-byte input (one frame and one dangling
    byte) is not rejected; the output is that of the frame alone. *)
Lemma dangling_byte_not_rejected :
  length dangling_image = (512 * 1 + 1)%nat /\
  ~ fails (modify_uf2_bytes dangling_image) /\
  modify_uf2_bytes dangling_image = modify_uf2_bytes (erase_frame 0x10000000 0 1).
Proof.
  split; [reflexivity|]. split.
  - rewrite modify_uf2_bytes_ok by (vm_compute; discriminate). apply fails_Ok.
  - assert (whole_frames dangling_image = whole_frames (erase_frame 0x10000000 0 1)) as Hsame
      by (vm_compute; reflexivity).
    rewrite !modify_uf2_bytes_ok by (vm_compute; discriminate).
    by rewrite <- (output_blocks_whole_frames dangling_image), Hsame,
      output_blocks_whole_frames.
Qed.

(** C2, amended: for every input of length [512*k + r] with [0 < r < 512]
    whose block total fits the 32-bit counter, the transform does not fail;
    the [r] dangling bytes are dropped: the output is the one for the first
    [512*k] bytes and is [512 * (k + 64)] bytes long. *)
Theorem partial_frame_dropped (data : bytes) (k r : nat) :
  length data = (512 * k + r)%nat -> (0 < r < 512)%nat ->
  Z.of_nat k + 64 <= 0xFFFFFFFF ->
  ~ fails (modify_uf2_bytes data) /\
  modify_uf2_bytes data = modify_uf2_bytes (take (512 * k) data) /\
  exists out, modify_uf2_bytes data = Ok out /\ length out = (512 * (k + 64))%nat.
Proof.
  intros Hlen Hr Hbound.
  assert (length data / 512 = k)%nat as Hk.
  { rewrite Hlen, Nat.mul_comm, Nat.div_add_l, Nat.div_small by lia. lia. }
  assert (take (512 * k) data = whole_frames data) as Htake
    by (unfold whole_frames; by rewrite Hk).
  assert (modify_uf2_bytes data = Ok (concat (output_blocks data))) as Hrun
    by (apply modify_uf2_bytes_ok; by rewrite Hk).
  split; [rewrite Hrun; apply fails_Ok|]. split.
  - rewrite Hrun, Htake.
    rewrite modify_uf2_bytes_ok by (by rewrite whole_frames_count, Hk).
    by rewrite output_blocks_whole_frames.
  - eexists. split; [exact Hrun|]. by rewrite length_output_bytes, Hk.
Qed.

(** The amended C2 at the 513-byte input. *)
Lemma partial_frame_dropped_witness :
  length dangling_image = (512 * 1 + 1)%nat /\ (0 < 1 < 512)%nat /\
  Z.of_nat 1 + 64 <= 0xFFFFFFFF /\
  exists out, modify_uf2_bytes dangling_image = Ok out /\ length out = (512 * 65)%nat.
Proof.
  assert (length dangling_image = (512 * 1 + 1)%nat) as Hlen by reflexivity.
  assert (0 < 1 < 512)%nat as Hr by lia.
  assert (Z.of_nat 1 + 64 <= 0xFFFFFFFF) as Hbound by lia.
  repeat (split; [assumption|]).
  destruct (partial_frame_dropped dangling_image 1 1 Hlen Hr Hbound) as (_ & _ & out & Hrun & Hout).
  exists out. split; [exact Hrun|exact Hout].
Defined.

(** C8: for every input whose block total fits the 32-bit counter, whatever
    its length, the output is [512 * (floor(length / 512) + 64)] bytes
    long, a multiple of 512, and does not depend on the trailing partial
    frame: any input with the same whole frames gives the same output. *)
Theorem output_length_floor (data : bytes) :
  Z.of_nat (length data / 512) + 64 <= 0xFFFFFFFF ->
  exists out,
    modify_uf2_bytes data = Ok out /\
    length out = (512 * (length data / 512 + 64))%nat /\
    (length out mod 512 = 0)%nat /\
    (forall data' : bytes, whole_frames data' = whole_frames data ->
       modify_uf2_bytes data' = Ok out).
Proof.
  intros Hbound. exists (concat (output_blocks data)).
  split; [by apply modify_uf2_bytes_ok|].
  split; [apply length_output_bytes|]. split.
  - rewrite length_output_bytes, Nat.mul_comm. apply Nat.Div0.mod_mul.
  - intros data' Hsame.
    assert (length data' / 512 = length data / 512)%nat as Hk
      by (by rewrite <- (whole_frames_count data'), Hsame, whole_frames_count).
    rewrite modify_uf2_bytes_ok by (by rewrite Hk).
    by rewrite <- (output_blocks_whole_frames data'), Hsame, output_blocks_whole_frames.
Qed.

(** C8 at the 513-byte input: 512 * 65 bytes, the same as for its first 512. *)
Lemma output_length_floor_witness :
  Z.of_nat (length dangling_image / 512) + 64 <= 0xFFFFFFFF /\
  exists out,
    modify_uf2_bytes dangling_image = Ok out /\ length out = (512 * 65)%nat /\
    modify_uf2_bytes (erase_frame 0x10000000 0 1) = Ok out.
Proof.
  assert (Z.of_nat (length dangling_image / 512) + 64 <= 0xFFFFFFFF) as Hbound
    by (vm_compute; discriminate).
  split; [exact Hbound|].
  destruct (output_length_floor dangling_image Hbound) as (out & Hrun & Hlen & _ & Hsame).
  exists out. split; [exact Hrun|]. split; [exact Hlen|].
  apply Hsame. vm_compute. reflexivity.
Defined.

(** ** Magic words *)

(** C3, as stated, fails: a 512-byte frame whose first magic word is
    corrupted (the other two are intact) is not rejected, and the corrupted
    word is written to the output. *)
Lemma corrupted_magic_not_rejected :
  length bad_magic_image = 512%nat /\
  magic_start0 bad_magic_image <> UF2_MAGIC_START0 /\
  magic_start1 bad_magic_image = UF2_MAGIC_START1 /\
  magic_end bad_magic_image = UF2_MAGIC_END /\
  ~ fails (modify_uf2_bytes bad_magic_image) /\
  exists blocks f,
    modify_uf2_blocks bad_magic_image = Ok blocks /\ blocks !! 0%nat = Some f /\
    magic_start0 f = magic_start0 bad_magic_image.
Proof.
  split; [reflexivity|]. split; [vm_compute; discriminate|].
  split; [reflexivity|]. split; [reflexivity|]. split.
  - rewrite modify_uf2_bytes_ok by (vm_compute; discriminate). apply fails_Ok.
  - eexists; eexists. split; [vm_compute; reflexivity|].
    split; [reflexivity|]. vm_compute. reflexivity.
Qed.

(** C3, amended: the transform checks no magic word. For every input whose
    block total fits the 32-bit counter it succeeds, and every original
    frame reaches the output with the [magic_start0], [magic_start1] and
    [magic_end] words the input had, whether or not they match the
    constants. *)
Theorem magic_words_copied_unchecked (data : bytes) :
  Z.of_nat (length data / 512) + 64 <= 0xFFFFFFFF ->
  exists blocks,
    modify_uf2_blocks data = Ok blocks /\
    forall i : nat, (i < length data / 512)%nat ->
      exists f,
        blocks !! i = Some f /\
        magic_start0 f = magic_start0 (frame_at data (Z.of_nat i)) /\
        magic_start1 f = magic_start1 (frame_at data (Z.of_nat i)) /\
        magic_end f = magic_end (frame_at data (Z.of_nat i)).
Proof.
  intros Hbound. exists (output_blocks data).
  split; [apply modify_uf2_blocks_ok; by rewrite original_blocks_nat|].
  intros i Hi. eexists. split; [by apply output_blocks_original|].
  unfold magic_start0, magic_start1, magic_end.
  repeat split; apply recounted_unpack_ne; try lia;
    unfold OFF_MAGIC_START0, OFF_MAGIC_START1, OFF_MAGIC_END; lia.
Qed.

(** The amended C3 at the frame with the corrupted first magic word. *)
Lemma magic_words_copied_unchecked_witness :
  Z.of_nat (length bad_magic_image / 512) + 64 <= 0xFFFFFFFF /\
  exists blocks f,
    modify_uf2_blocks bad_magic_image = Ok blocks /\ blocks !! 0%nat = Some f /\
    magic_start0 f = magic_start0 (frame_at bad_magic_image 0).
Proof.
  assert (Z.of_nat (length bad_magic_image / 512) + 64 <= 0xFFFFFFFF) as Hbound
    by (vm_compute; discriminate).
  split; [exact Hbound|].
  destruct (magic_words_copied_unchecked bad_magic_image Hbound) as (blocks & Hrun & Hmagic).
  assert (0 < length bad_magic_image / 512)%nat as H0 by (vm_compute; lia).
  destruct (Hmagic 0%nat H0) as (f & Hf & Hm0 & _).
  exists blocks, f. split; [exact Hrun|]. split; [exact Hf|exact Hm0].
Defined.

(** ** Original blocks *)

(** C10: for every input whose block total fits the 32-bit counter, each
    of the first [k] frames of the output file differs from the input frame
    at the same position at most in the bytes at offsets 24 to 27; those
    four bytes hold the new total. In particular the index field at
    offsets 20 to 23, the magic words, the flags, the target address, the
    payload size, the family ID and the payload are those of the input. *)
Theorem original_block_frame_effect (data : bytes) :
  Z.of_nat (length data / 512) + 64 <= 0xFFFFFFFF ->
  exists out,
    modify_uf2_bytes data = Ok out /\
    forall i : nat, (i < length data / 512)%nat ->
      let f := frame_at out (Z.of_nat i) in
      let f_in := frame_at data (Z.of_nat i) in
      length f = 512%nat /\ length f_in = 512%nat /\
      (forall j : nat, (j < 24 \/ 28 <= j)%nat -> f !! j = f_in !! j) /\
      block_count f = Z.of_nat (length data / 512) + 64 /\
      block_index f = block_index f_in /\
      magic_start0 f = magic_start0 f_in /\ magic_start1 f = magic_start1 f_in /\
      flags f = flags f_in /\ target_address f = target_address f_in /\
      payload_size f = payload_size f_in /\ family_id f = family_id f_in /\
      payload f = payload f_in /\ magic_end f = magic_end f_in.
Proof.
  intros Hbound. exists (concat (output_blocks data)).
  split; [by apply modify_uf2_bytes_ok|].
  intros i Hi. cbv zeta.
  rewrite (frame_at_concat _ _ _ (output_blocks_uniform data)
             (output_blocks_original data i Hi)).
  assert (0 <= Z.of_nat i < Z.of_nat (length data / 512)) as Hi' by lia.
  split; [apply length_recounted; by rewrite original_blocks_nat|].
  split; [apply length_frame_at; by rewrite original_blocks_nat|].
  split; [intros j Hj; by apply recounted_lookup_ne|].
  split; [apply recounted_block_count; [done|lia]|].
  unfold block_index, magic_start0, magic_start1, flags, target_address,
    payload_size, family_id, magic_end, payload.
  repeat split;
    first [apply recounted_unpack_ne | apply recounted_field_ne]; try done;
    unfold OFF_BLOCK_NO, OFF_MAGIC_START0, OFF_MAGIC_START1, OFF_FLAGS,
      OFF_TARGET_ADDR, OFF_PAYLOAD_SIZE, OFF_FAMILY_ID, OFF_DATA, OFF_MAGIC_END; lia.
Qed.

(** C10 at the one-frame image that calls itself block 5 of 6: the index
    stays 5 and the count becomes 65. *)
Lemma original_block_frame_effect_witness :
  Z.of_nat (length stray_block_image / 512) + 64 <= 0xFFFFFFFF /\
  exists out,
    modify_uf2_bytes stray_block_image = Ok out /\
    block_index (frame_at out 0) = block_index (frame_at stray_block_image 0) /\
    block_count (frame_at out 0) = 65.
Proof.
  assert (Z.of_nat (length stray_block_image / 512) + 64 <= 0xFFFFFFFF) as Hbound
    by (vm_compute; discriminate).
  split; [exact Hbound|].
  destruct (original_block_frame_effect stray_block_image Hbound) as (out & Hrun & Hframe).
  assert (0 < length stray_block_image / 512)%nat as H0 by (vm_compute; lia).
  destruct (Hframe 0%nat H0) as (_ & _ & _ & Hcount & Hindex & _).
  exists out. split; [exact Hrun|]. split; [exact Hindex|exact Hcount].
Defined.

(** ** The synthesized erase blocks *)

(** C4: for every erase range with base address [B = 0x10000000 +
    user_script_offset] and length [L], a positive multiple of 256, that lies
    in the 32-bit address space, and for block numbers that fit the 32-bit
    fields, the erase loop produces exactly [L / 256] blocks; the [i]-th is
    a 512-byte frame with [target_address = B + i*256], [payload_size = 256],
    a payload of 256 bytes [0xFF], the flag bit [0x2000] set, and the
    trailing magic [0x0AB16F30] at byte offset 508. *)
Theorem erase_range_coverage (user_script_offset L start total_blocks : Z) :
  0 <= erase_base user_script_offset ->
  0 < L -> L mod 256 = 0 ->
  erase_base user_script_offset + L <= 0x100000000 ->
  0 <= start -> start + L / 256 <= 0x100000000 ->
  0 <= total_blocks <= 0xFFFFFFFF ->
  exists blocks,
    add_erase_blocks user_script_offset (L / BLOCK_SIZE) start total_blocks [] = Ok blocks /\
    Z.of_nat (length blocks) = L / 256 /\
    forall i : nat, Z.of_nat i < L / 256 ->
      exists f,
        blocks !! i = Some f /\ length f = 512%nat /\
        target_address f = erase_base user_script_offset + Z.of_nat i * 256 /\
        payload_size f = 256 /\
        payload f = replicate 256 xff /\
        Z.land (flags f) 0x2000 = 0x2000 /\
        unpack_from_I f 508 = 0x0AB16F30.
Proof.
  intros HB HL Hmul Hend Hs Hsn Ht. change BLOCK_SIZE with 256.
  assert (L = 256 * (L / 256)) as HLdiv by (apply Z.div_exact; lia).
  eexists. split.
  { apply add_erase_blocks_ok; try done; change BLOCK_SIZE with 256; lia. }
  cbn [app]. rewrite length_map, length_range. split; [lia|].
  intros i Hi. eexists. split.
  { rewrite list_lookup_fmap, lookup_range by lia. reflexivity. }
  change BLOCK_SIZE with 256.
  split; [reflexivity|].
  split; [rewrite erase_frame_target_address; lia|].
  split; [by rewrite erase_frame_payload_size|].
  split; [by rewrite erase_frame_payload|].
  split; [by rewrite erase_frame_flags|].
  apply (erase_frame_magic_end (erase_base user_script_offset + Z.of_nat i * 256)
           (start + Z.of_nat i) total_blocks).
Qed.

(** C4 at the range the script erases: the last 16 KiB of the 2 MiB flash,
    numbered from 0. *)
Lemma erase_range_coverage_witness :
  exists blocks f,
    add_erase_blocks USER_SCRIPT_OFFSET (USER_SCRIPT_SIZE / BLOCK_SIZE) 0 64 [] = Ok blocks /\
    Z.of_nat (length blocks) = USER_SCRIPT_SIZE / 256 /\
    blocks !! 63%nat = Some f /\ target_address f = 0x101FFF00.
Proof.
  assert (0 <= erase_base USER_SCRIPT_OFFSET) as HB by (vm_compute; discriminate).
  assert (0 < USER_SCRIPT_SIZE) as HL by reflexivity.
  assert (USER_SCRIPT_SIZE mod 256 = 0) as Hmul by reflexivity.
  assert (erase_base USER_SCRIPT_OFFSET + USER_SCRIPT_SIZE <= 0x100000000) as Hend
    by (vm_compute; discriminate).
  assert (0 <= 0) as Hs by lia.
  assert (0 + USER_SCRIPT_SIZE / 256 <= 0x100000000) as Hsn by (vm_compute; discriminate).
  assert (0 <= 64 <= 0xFFFFFFFF) as Ht by lia.
  destruct (erase_range_coverage USER_SCRIPT_OFFSET USER_SCRIPT_SIZE 0 64
              HB HL Hmul Hend Hs Hsn Ht) as (blocks & Hrun & Hlen & Hblocks).
  assert (Z.of_nat 63 < USER_SCRIPT_SIZE / 256) as H63 by reflexivity.
  destruct (Hblocks 63%nat H63) as (f & Hf & _ & Haddr & _).
  exists blocks, f. split; [exact Hrun|]. split; [exact Hlen|]. split; [exact Hf|exact Haddr].
Defined.

(** ** The extended image *)

(** C5: for every input of exactly [k] frames ([512*k] bytes) whose block
    total fits the 32-bit counter, the output has [k + m] blocks with
    [m = 16384 / 256 = 64]; each of the first [k] blocks has the target
    address and the payload of the input block at its position and differs
    from it in no byte outside the [block_index]/[block_count] fields
    (offsets 20 to 27); its [block_count] is [k + 64]; each of the 64 new
    blocks has a payload of 256 bytes [0xFF]. *)
Theorem extension_length_law (data : bytes) (k : nat) :
  length data = (512 * k)%nat ->
  Z.of_nat k + 64 <= 0xFFFFFFFF ->
  USER_SCRIPT_SIZE / BLOCK_SIZE = 64 /\
  exists blocks,
    modify_uf2_blocks data = Ok blocks /\
    modify_uf2_bytes data = Ok (concat blocks) /\
    length blocks = (k + 64)%nat /\
    (forall i : nat, (i < k)%nat ->
       exists f,
         blocks !! i = Some f /\
         target_address f = target_address (frame_at data (Z.of_nat i)) /\
         payload f = payload (frame_at data (Z.of_nat i)) /\
         (forall j : nat, (j < 20 \/ 28 <= j)%nat ->
            f !! j = frame_at data (Z.of_nat i) !! j) /\
         block_count f = Z.of_nat k + 64) /\
    (forall i : nat, (i < 64)%nat ->
       exists f, blocks !! (k + i)%nat = Some f /\ payload f = replicate 256 xff).
Proof.
  intros Hlen Hbound. split; [reflexivity|].
  assert (length data / 512 = k)%nat as Hk
    by (rewrite Hlen, Nat.mul_comm; by apply Nat.div_mul).
  exists (output_blocks data).
  split; [apply modify_uf2_blocks_ok; by rewrite original_blocks_nat, Hk|].
  split; [apply modify_uf2_bytes_ok; by rewrite Hk|].
  split; [by rewrite length_output_blocks, Hk|]. split.
  - intros i Hi. eexists.
    split; [apply output_blocks_original; by rewrite Hk|].
    rewrite Hk.
    assert (0 <= Z.of_nat i < Z.of_nat (length data / 512)) as Hi' by lia.
    split; [apply recounted_unpack_ne; [done|unfold OFF_TARGET_ADDR; lia]|].
    split; [apply recounted_field_ne; [done|unfold OFF_DATA; lia]|].
    split; [intros j Hj; apply recounted_lookup_ne; [done|lia]|].
    apply recounted_block_count; [done|lia].
  - intros i Hi. eexists. rewrite <- Hk.
    split; [by apply output_blocks_erase|reflexivity].
Qed.

(** C5 at the 100-block image of 51200 bytes: 164 blocks come out, the
    count of every original block goes from 100 to 164, and the payload of
    each of the 64 new blocks is 256 bytes [0xFF]. *)
Lemma extension_length_law_witness :
  length image100 = (512 * 100)%nat /\
  exists blocks,
    modify_uf2_blocks image100 = Ok blocks /\
    length blocks = 164%nat /\
    (forall i : nat, (i < 100)%nat ->
       block_count (frame_at image100 (Z.of_nat i)) = 100 /\
       exists f, blocks !! i = Some f /\ block_count f = 164) /\
    (forall i : nat, (i < 64)%nat ->
       exists f, blocks !! (100 + i)%nat = Some f /\ payload f = replicate 256 xff).
Proof.
  assert (length image100 = (512 * 100)%nat) as Hlen.
  { unfold image100. rewrite (length_concat_uniform _ 512).
    - by rewrite length_map, length_range.
    - apply Forall_forall. intros f Hf.
      apply list_elem_of_fmap in Hf as (i & -> & _). reflexivity. }
  assert (Z.of_nat 100 + 64 <= 0xFFFFFFFF) as Hbound by (vm_compute; discriminate).
  split; [exact Hlen|].
  destruct (extension_length_law image100 100 Hlen Hbound)
    as (_ & blocks & Hrun & _ & Hblocks & Horig & Hnew).
  exists blocks. split; [exact Hrun|]. split; [exact Hblocks|]. split; [|exact Hnew].
  intros i Hi. split.
  - unfold image100.
    rewrite (frame_at_concat _ i
               (erase_frame (0x10000000 + Z.of_nat i * 256) (Z.of_nat i) 100)).
    + rewrite erase_frame_block_count; lia.
    + apply Forall_forall. intros f Hf.
      apply list_elem_of_fmap in Hf as (j & -> & _). reflexivity.
    + rewrite list_lookup_fmap, lookup_range by lia. reflexivity.
  - destruct (Horig i Hi) as (f & Hf & _ & _ & _ & Hcount).
    exists f. split; [exact Hf|exact Hcount].
Defined.

(** ** The family ID of the erase blocks *)

(** C6, as stated, fails: the only (hence last) block of the input is
    tagged with the family [0x12345678], with the family-present flag set,
    and the first erase block of the output carries [0xe48bff56]. *)
Lemma erase_family_not_from_input :
  flags (frame_at other_family_image 0) = 0x2000 /\
  family_id (frame_at other_family_image 0) = 0x12345678 /\
  exists blocks f,
    modify_uf2_blocks other_family_image = Ok blocks /\
    blocks !! 1%nat = Some f /\
    family_id f = 0xe48bff56 /\
    family_id f <> family_id (frame_at other_family_image 0).
Proof.
  split; [vm_compute; reflexivity|]. split; [vm_compute; reflexivity|].
  eexists; eexists. split; [vm_compute; reflexivity|].
  split; [reflexivity|]. split; [vm_compute; reflexivity|].
  vm_compute. discriminate.
Qed.

(** C6, amended: the family ID written into the erase blocks is the
    constant [0xe48bff56] whatever the input holds: every frame
    [create_erase_block] returns carries it, and so does each of the 64
    blocks the transform appends to an input whose block total fits the
    32-bit counter. *)
Theorem erase_family_constant :
  (forall (target_addr block_num total_blocks : Z) (f : bytes),
     create_erase_block target_addr block_num total_blocks = Ok f ->
     family_id f = 0xe48bff56) /\
  (forall data : bytes,
     Z.of_nat (length data / 512) + 64 <= 0xFFFFFFFF ->
     exists blocks,
       modify_uf2_blocks data = Ok blocks /\
       forall i : nat, (i < 64)%nat ->
         exists f, blocks !! (length data / 512 + i)%nat = Some f /\
                   family_id f = 0xe48bff56).
Proof.
  split.
  - intros a n t f Hf.
    destruct (decide (0 <= a <= 0xFFFFFFFF /\ 0 <= n <= 0xFFFFFFFF /\ 0 <= t <= 0xFFFFFFFF))
      as [(Ha & Hn & Ht)|Hout].
    + rewrite create_erase_block_ok in Hf by done.
      assert (f = erase_frame a n t) as -> by congruence. reflexivity.
    + rewrite create_erase_block_overflow in Hf by done. discriminate Hf.
  - intros data Hbound. exists (output_blocks data).
    split; [apply modify_uf2_blocks_ok; by rewrite original_blocks_nat|].
    intros i Hi. eexists. split; [by apply output_blocks_erase|reflexivity].
Qed.

(** The amended C6 at the image tagged [0x12345678]. *)
Lemma erase_family_constant_witness :
  Z.of_nat (length other_family_image / 512) + 64 <= 0xFFFFFFFF /\
  exists blocks f,
    modify_uf2_blocks other_family_image = Ok blocks /\
    blocks !! 64%nat = Some f /\ family_id f = 0xe48bff56.
Proof.
  assert (Z.of_nat (length other_family_image / 512) + 64 <= 0xFFFFFFFF) as Hbound
    by (vm_compute; discriminate).
  split; [exact Hbound|].
  destruct erase_family_constant as [_ Hall].
  destruct (Hall other_family_image Hbound) as (blocks & Hrun & Hfam).
  assert (63 < 64)%nat as H63 by lia.
  destruct (Hfam 63%nat H63) as (f & Hf & Hid).
  exists blocks, f. split; [exact Hrun|]. split; [exact Hf|exact Hid].
Defined.

(** ** The empty input *)

(** C9: on the empty input the transform succeeds: it builds exactly 64
    blocks, the block at position [i] has [block_index = i] and
    [block_count = 64], and the output is 32768 bytes long. *)
Theorem empty_input_accepted :
  exists blocks out,
    modify_uf2_blocks [] = Ok blocks /\
    length blocks = 64%nat /\
    renumbered blocks /\
    (forall (i : nat) (f : bytes), blocks !! i = Some f ->
       block_index f = Z.of_nat i /\ block_count f = 64 /\
       create_erase_block (erase_base USER_SCRIPT_OFFSET + Z.of_nat i * BLOCK_SIZE)
         (Z.of_nat i) 64 = Ok f) /\
    modify_uf2_bytes [] = Ok out /\
    ~ fails (modify_uf2_bytes []) /\
    Z.of_nat (length out) = 32768.
Proof.
  assert (Z.of_nat (length (@nil byte) / 512) + 64 <= 0xFFFFFFFF) as Hbound
    by (vm_compute; discriminate).
  assert (forall (i : nat) (f : bytes), output_blocks [] !! i = Some f ->
            (i < 64)%nat /\ f = erase_frame (erase_base USER_SCRIPT_OFFSET + Z.of_nat i * BLOCK_SIZE)
                                  (Z.of_nat i) 64) as Hshape.
  { intros i f Hf. apply lookup_lt_Some in Hf as Hlt.
    rewrite length_output_blocks in Hlt. change (length (@nil byte) / 512)%nat with 0%nat in Hlt.
    split; [lia|].
    pose proof (output_blocks_erase [] i ltac:(lia)) as He.
    change (length (@nil byte) / 512)%nat with 0%nat in He.
    rewrite Nat.add_0_l in He. rewrite He in Hf. apply (inj Some) in Hf. subst f.
    f_equal. }
  exists (output_blocks []), (concat (output_blocks [])).
  split; [by apply modify_uf2_blocks_ok|].
  split; [apply length_output_blocks|]. split; [|split].
  - intros i f Hf. destruct (Hshape i f Hf) as [Hi ->].
    rewrite erase_frame_block_index, erase_frame_block_count by lia.
    by rewrite length_output_blocks.
  - intros i f Hf. destruct (Hshape i f Hf) as [Hi ->].
    rewrite erase_frame_block_index, erase_frame_block_count by lia.
    split; [done|]. split; [done|].
    apply create_erase_block_ok; unfold erase_base, USER_SCRIPT_OFFSET, BLOCK_SIZE; lia.
  - split; [by apply modify_uf2_bytes_ok|]. split.
    + rewrite modify_uf2_bytes_ok by done. apply fails_Ok.
    + rewrite length_output_bytes. reflexivity.
Qed.

(** ** Determinism *)

(** A run of [modify_uf2], operation by operation: the read, then the
    transform, then the write, then the two prints; the first step that
    raises ends the run. *)
Lemma run_modify_uf2 (rt : runtime) (input_path output_path : string) (s : rt_state rt) :
  run rt (modify_uf2 input_path output_path) s
  = match rt_read rt input_path s with
    | Raise e => ([Ev_read input_path], Raise e)
    | Ok (data, s1) =>
        match modify_uf2_blocks data with
        | Raise e => ([Ev_read input_path], Raise e)
        | Ok blocks =>
            match rt_write rt output_path blocks s1 with
            | Raise e => ([Ev_read input_path; Ev_write output_path blocks], Raise e)
            | Ok s2 =>
                match rt_print rt added_line s2 with
                | Raise e =>
                    ([Ev_read input_path; Ev_write output_path blocks;
                      Ev_print added_line], Raise e)
                | Ok s3 =>
                    ([Ev_read input_path; Ev_write output_path blocks;
                      Ev_print added_line; Ev_print (summary_line data)],
                     match rt_print rt (summary_line data) s3 with
                     | Raise e => Raise e
                     | Ok s4 => Ok (tt, s4)
                     end)
                end
            end
        end
    end.
Proof.
  unfold modify_uf2. cbn [run].
  destruct (rt_read rt input_path s) as [[data s1]|e]; [|reflexivity].
  destruct (modify_uf2_blocks data) as [blocks|e]; [|reflexivity].
  cbn [run]. destruct (rt_write rt output_path blocks s1) as [s2|e]; [|reflexivity].
  fold added_line. fold (summary_line data).
  destruct (rt_print rt added_line s2) as [s3|e]; [|reflexivity].
  destruct (rt_print rt (summary_line data) s3) as [s4|e]; reflexivity.
Qed.

(** The bytes a run hands to its write are those of the transform of the
    bytes it read, and there is no write when the transform raises. *)
Lemma written_modify_uf2 (rt : runtime) (input_path output_path : string)
    (s s1 : rt_state rt) (data : bytes) :
  rt_read rt input_path s = Ok (data, s1) ->
  written (run rt (modify_uf2 input_path output_path) s).1
  = match modify_uf2_bytes data with
    | Ok out => [out]
    | Raise _ => []
    end.
Proof.
  intros Hread. rewrite run_modify_uf2, Hread. unfold modify_uf2_bytes.
  destruct (modify_uf2_blocks data) as [blocks|e]; [|reflexivity]. cbn [bind].
  destruct (rt_write rt output_path blocks s1) as [s2|e]; [|reflexivity].
  destruct (rt_print rt added_line s2) as [s3|e]; reflexivity.
Qed.

(** C7: erase-block generation is a function of its three arguments: two
    calls with the same arguments that return a frame return the same
    frame, of 512 bytes. The whole transform is a function of the input
    bytes: on any two operating systems, in any states and under any
    paths, two runs whose reads return the same bytes hand the same bytes
    to their writes, namely the transform of the bytes read, or attempt no
    write at all when the transform raises. *)
Theorem transform_deterministic :
  (forall (a n t : Z) (f1 f2 : bytes),
     create_erase_block a n t = Ok f1 -> create_erase_block a n t = Ok f2 ->
     f1 = f2 /\ length f1 = 512%nat) /\
  (forall (rt1 rt2 : runtime) (s1 s1' : rt_state rt1) (s2 s2' : rt_state rt2)
          (input_path1 input_path2 output_path1 output_path2 : string) (data : bytes),
     rt_read rt1 input_path1 s1 = Ok (data, s1') ->
     rt_read rt2 input_path2 s2 = Ok (data, s2') ->
     written (run rt1 (modify_uf2 input_path1 output_path1) s1).1
     = written (run rt2 (modify_uf2 input_path2 output_path2) s2).1 /\
     written (run rt1 (modify_uf2 input_path1 output_path1) s1).1
     = match modify_uf2_bytes data with
       | Ok out => [out]
       | Raise _ => []
       end).
Proof.
  split.
  - intros a n t f1 f2 Hf1 Hf2. split; [congruence|].
    destruct (decide (0 <= a <= 0xFFFFFFFF /\ 0 <= n <= 0xFFFFFFFF /\ 0 <= t <= 0xFFFFFFFF))
      as [(Ha & Hn & Ht)|Hout].
    + rewrite create_erase_block_ok in Hf1 by done.
      assert (f1 = erase_frame a n t) as -> by congruence. reflexivity.
    + rewrite create_erase_block_overflow in Hf1 by done. discriminate Hf1.
  - intros rt1 rt2 s1 s1' s2 s2' in1 in2 out1 out2 data Hread1 Hread2.
    rewrite (written_modify_uf2 rt1 in1 out1 s1 s1' data Hread1).
    by rewrite (written_modify_uf2 rt2 in2 out2 s2 s2' data Hread2).
Qed.

(** C7 at two systems that hold the same image under different names: one
    accepts the write and one refuses it, and both were handed the same
    bytes. *)
Lemma transform_deterministic_witness :
  rt_read flat_fs "in.uf2" state_a = Ok (stray_block_image, state_a) /\
  rt_read read_only_fs "fw.uf2" state_b = Ok (stray_block_image, state_b) /\
  written (run flat_fs (modify_uf2 "in.uf2" "a.uf2") state_a).1
  = written (run read_only_fs (modify_uf2 "fw.uf2" "out.uf2") state_b).1.
Proof.
  assert (rt_read flat_fs "in.uf2" state_a = Ok (stray_block_image, state_a)) as Hread1
    by (vm_compute; reflexivity).
  assert (rt_read read_only_fs "fw.uf2" state_b = Ok (stray_block_image, state_b)) as Hread2
    by (vm_compute; reflexivity).
  split; [exact Hread1|]. split; [exact Hread2|].
  destruct transform_deterministic as [_ Hruns].
  exact (proj1 (Hruns flat_fs read_only_fs state_a state_a state_b state_b
                  "in.uf2"%string "fw.uf2"%string "a.uf2"%string "out.uf2"%string
                  stray_block_image Hread1 Hread2)).
Defined.

(** * Further properties of the script *)

(** ** [create_erase_block] *)

(** X1: [create_erase_block] returns a frame exactly when its three
    arguments are in the range of ["<I"]; otherwise it raises
    [struct.error], and never another exception. *)
Theorem create_erase_block_result (target_addr block_num total_blocks : Z) :
  (0 <= target_addr <= 0xFFFFFFFF /\ 0 <= block_num <= 0xFFFFFFFF
   /\ 0 <= total_blocks <= 0xFFFFFFFF
   <-> exists f, create_erase_block target_addr block_num total_blocks = Ok f) /\
  (forall e : exn,
     create_erase_block target_addr block_num total_blocks = Raise e -> e = struct_error).
Proof.
  destruct (decide (0 <= target_addr <= 0xFFFFFFFF /\ 0 <= block_num <= 0xFFFFFFFF
                    /\ 0 <= total_blocks <= 0xFFFFFFFF)) as [(Ha & Hn & Ht)|Hout].
  - rewrite create_erase_block_ok by done. split; [|discriminate].
    split; [eauto|done].
  - rewrite create_erase_block_overflow by done. split; [|congruence].
    split; [done|]. intros [f Hf]. discriminate Hf.
Qed.

(** X2: a frame returned by [create_erase_block] reads back as the three
    arguments it was made from, so two calls that return the same frame had
    the same arguments. *)
Theorem create_erase_block_round_trip (target_addr block_num total_blocks : Z) (f : bytes) :
  create_erase_block target_addr block_num total_blocks = Ok f ->
  (target_address f = target_addr /\ block_index f = block_num
   /\ block_count f = total_blocks) /\
  (forall a n t : Z, create_erase_block a n t = Ok f ->
     a = target_addr /\ n = block_num /\ t = total_blocks).
Proof.
  assert (forall a n t g, create_erase_block a n t = Ok g ->
            target_address g = a /\ block_index g = n /\ block_count g = t) as Hread.
  { intros a n t g Hg.
    destruct (decide (0 <= a <= 0xFFFFFFFF /\ 0 <= n <= 0xFFFFFFFF /\ 0 <= t <= 0xFFFFFFFF))
      as [(Ha & Hn & Ht)|Hout].
    - rewrite create_erase_block_ok in Hg by done.
      assert (g = erase_frame a n t) as -> by congruence.
      by rewrite erase_frame_target_address, erase_frame_block_index,
        erase_frame_block_count.
    - rewrite create_erase_block_overflow in Hg by done. discriminate Hg. }
  intros Hf. split; [by apply Hread|].
  intros a n t Hg.
  destruct (Hread _ _ _ _ Hf) as (<- & <- & <-).
  destruct (Hread _ _ _ _ Hg) as (<- & <- & <-). done.
Qed.

(** X2 at the first block the script appends to an empty image. *)
Lemma create_erase_block_round_trip_witness :
  exists f,
    create_erase_block 0x101FC000 0 64 = Ok f /\
    target_address f = 0x101FC000 /\ block_index f = 0 /\ block_count f = 64.
Proof.
  assert (create_erase_block 0x101FC000 0 64 = Ok (erase_frame 0x101FC000 0 64)) as Hf
    by (vm_compute; reflexivity).
  exists (erase_frame 0x101FC000 0 64). split; [exact Hf|].
  exact (proj1 (create_erase_block_round_trip 0x101FC000 0 64 _ Hf)).
Defined.

(** The erase frame is the frame for the arguments 0, 0, 0 with three
    fields overwritten. *)
Lemma erase_frame_as_splices (a n t : Z) :
  erase_frame a n t
  = splice (splice (splice (erase_frame 0 0 0) OFF_TARGET_ADDR (le32 a))
              OFF_BLOCK_NO (le32 n)) OFF_NUM_BLOCKS (le32 t).
Proof.
  unfold erase_frame.
  name_le32 a. name_le32 n. name_le32 t. rewrite E, E0, E1.
  vm_compute. reflexivity.
Qed.

(** X3: whatever the arguments, [create_erase_block] writes the same byte
    at every offset outside the three argument fields (12 to 15 and 20 to
    27); in particular offsets 288 to 507, after the payload, hold zero. *)
Theorem create_erase_block_fixed_bytes (a n t a' n' t' : Z) (f f' : bytes) :
  create_erase_block a n t = Ok f ->
  create_erase_block a' n' t' = Ok f' ->
  length f = 512%nat /\
  (forall j : nat, (j < 12 \/ 16 <= j < 20 \/ 28 <= j)%nat -> f !! j = f' !! j) /\
  (forall j : nat, (288 <= j < 508)%nat -> f !! j = Some x00).
Proof.
  assert (forall a n t g, create_erase_block a n t = Ok g -> g = erase_frame a n t) as Hshape.
  { intros b m u g Hg.
    destruct (decide (0 <= b <= 0xFFFFFFFF /\ 0 <= m <= 0xFFFFFFFF /\ 0 <= u <= 0xFFFFFFFF))
      as [(Ha & Hn & Ht)|Hout].
    - rewrite create_erase_block_ok in Hg by done. congruence.
    - rewrite create_erase_block_overflow in Hg by done. discriminate Hg. }
  assert (forall b m u (j : nat), (j < 12 \/ 16 <= j < 20 \/ 28 <= j)%nat ->
            erase_frame b m u !! j = erase_frame 0 0 0 !! j) as Hfixed.
  { intros b m u j Hj. rewrite erase_frame_as_splices.
    unfold OFF_TARGET_ADDR, OFF_BLOCK_NO, OFF_NUM_BLOCKS.
    assert (length (erase_frame 0 0 0) = 512%nat) as H0 by reflexivity.
    assert (length (splice (erase_frame 0 0 0) 12 (le32 b)) = 512%nat) as H1
      by (rewrite length_splice; rewrite ?H0, ?length_le32; lia).
    assert (length (splice (splice (erase_frame 0 0 0) 12 (le32 b)) 20 (le32 m)) = 512%nat)
      as H2 by (rewrite length_splice; rewrite ?H1, ?length_le32; lia).
    rewrite lookup_splice_ne by (rewrite ?H2, length_le32; lia).
    rewrite lookup_splice_ne by (rewrite ?H1, length_le32; lia).
    apply lookup_splice_ne; rewrite ?H0, length_le32; lia. }
  intros Hf Hf'. apply Hshape in Hf, Hf'. subst f f'.
  split; [reflexivity|]. split.
  - intros j Hj. by rewrite (Hfixed a n t), (Hfixed a' n' t').
  - intros j Hj. rewrite Hfixed by lia.
    replace j with (288 + (j - 288))%nat by lia.
    change (erase_frame 0 0 0) with (take 288 (erase_frame 0 0 0) ++ replicate 220 x00
                                       ++ drop 508 (erase_frame 0 0 0)).
    rewrite lookup_app_r by (rewrite length_take; change (length (erase_frame 0 0 0)) with 512%nat; lia).
    rewrite length_take. change (length (erase_frame 0 0 0)) with 512%nat.
    rewrite lookup_app_l by (rewrite length_replicate; lia).
    apply lookup_replicate_2. lia.
Qed.

(** X3 at two frames with different arguments. *)
Lemma create_erase_block_fixed_bytes_witness :
  exists f f',
    create_erase_block 0x101FC000 0 64 = Ok f /\
    create_erase_block 0x101FFF00 163 164 = Ok f' /\
    f !! 300%nat = Some x00 /\ f !! 28%nat = f' !! 28%nat.
Proof.
  assert (create_erase_block 0x101FC000 0 64 = Ok (erase_frame 0x101FC000 0 64)) as Hf
    by (vm_compute; reflexivity).
  assert (create_erase_block 0x101FFF00 163 164 = Ok (erase_frame 0x101FFF00 163 164)) as Hf'
    by (vm_compute; reflexivity).
  destruct (create_erase_block_fixed_bytes _ _ _ _ _ _ _ _ Hf Hf') as (_ & Hsame & Hzero).
  eexists; eexists. split; [exact Hf|]. split; [exact Hf'|]. split.
  - apply Hzero. lia.
  - apply Hsame. lia.
Defined.

(** ** [modify_uf2] on bytes *)

(** X4: the transform of a byte sequence succeeds exactly when its number
    of whole frames plus 64 fits the 32-bit counter; otherwise it raises
    [struct.error], and it never raises another exception. *)
Theorem modify_uf2_bytes_result (data : bytes) :
  (Z.of_nat (length data / 512) + 64 <= 0xFFFFFFFF
   <-> exists out, modify_uf2_bytes data = Ok out) /\
  (forall e : exn, modify_uf2_bytes data = Raise e -> e = struct_error).
Proof.
  destruct (decide (Z.of_nat (length data / 512) + 64 <= 0xFFFFFFFF)) as [Hfit|Hbig].
  - rewrite modify_uf2_bytes_ok by done. split; [|discriminate].
    split; [eauto|done].
  - assert (modify_uf2_bytes data = Raise struct_error) as ->.
    { unfold modify_uf2_bytes. rewrite modify_uf2_blocks_overflow; [done|].
      rewrite original_blocks_nat. lia. }
    split; [|congruence]. split; [done|]. intros [out Hout]. discriminate Hout.
Qed.

(** Inputs too long for the counter exist: [2^32 - 64] frames of zeros. *)
Lemma counter_overflow_reachable :
  modify_uf2_bytes (replicate (512 * Z.to_nat (2 ^ 32 - 64)) x00) = Raise struct_error.
Proof.
  unfold modify_uf2_bytes. rewrite modify_uf2_blocks_overflow; [done|].
  rewrite original_blocks_nat, length_replicate.
  rewrite Nat.mul_comm, Nat.div_mul by lia.
  rewrite Z2Nat.id by lia. lia.
Qed.

(** ** [modify_uf2] on files *)

(** X5: on any operating system, a run of [modify_uf2] reads no path but
    [input_path] and writes no path but [output_path]; what it writes are
    the blocks of the transform of the bytes it read; a run that ends
    normally performed exactly four operations, in this order: the read,
    the write, and the prints of ["Added 64 erase blocks to UF2"] and of
    the line with the block counts before and after. *)
Theorem modify_uf2_effect (rt : runtime) (input_path output_path : string)
    (s : rt_state rt) :
  (forall path : string,
     Ev_read path ∈ (run rt (modify_uf2 input_path output_path) s).1 ->
     path = input_path) /\
  (forall (path : string) (blocks : list bytes),
     Ev_write path blocks ∈ (run rt (modify_uf2 input_path output_path) s).1 ->
     path = output_path /\
     exists data s1,
       rt_read rt input_path s = Ok (data, s1) /\ modify_uf2_blocks data = Ok blocks /\
       modify_uf2_bytes data = Ok (concat blocks)) /\
  (forall s' : rt_state rt,
     (run rt (modify_uf2 input_path output_path) s).2 = Ok (tt, s') ->
     exists data s1 blocks,
       rt_read rt input_path s = Ok (data, s1) /\ modify_uf2_blocks data = Ok blocks /\
       (run rt (modify_uf2 input_path output_path) s).1
       = [Ev_read input_path; Ev_write output_path blocks;
          Ev_print "Added 64 erase blocks to UF2";
          Ev_print ("Original: " +:+ pretty (Z.of_nat (length data / 512))
                      +:+ " blocks, Modified: "
                      +:+ pretty (Z.of_nat (length data / 512) + 64) +:+ " blocks")]).
Proof.
  rewrite run_modify_uf2.
  destruct (rt_read rt input_path s) as [[data s1]|e] eqn:Hread.
  2: { cbn [fst snd]. split; [|split].
       - intros path Hin. apply list_elem_of_singleton in Hin. congruence.
       - intros path blocks Hin. apply list_elem_of_singleton in Hin. discriminate Hin.
       - discriminate. }
  destruct (modify_uf2_blocks data) as [blocks|e] eqn:Hblocks.
  2: { cbn [fst snd]. split; [|split].
       - intros path Hin. apply list_elem_of_singleton in Hin. congruence.
       - intros path blocks Hin. apply list_elem_of_singleton in Hin. discriminate Hin.
       - discriminate. }
  assert (modify_uf2_bytes data = Ok (concat blocks)) as Hbytes
    by (unfold modify_uf2_bytes; by rewrite Hblocks).
  assert (summary_line data
          = "Original: " +:+ pretty (Z.of_nat (length data / 512))
              +:+ " blocks, Modified: "
              +:+ pretty (Z.of_nat (length data / 512) + 64) +:+ " blocks") as Hsummary
    by (unfold summary_line; by rewrite original_blocks_nat).
  assert (forall evs : list event,
            evs `prefix_of` [Ev_read input_path; Ev_write output_path blocks;
                              Ev_print added_line; Ev_print (summary_line data)] ->
            (forall path, Ev_read path ∈ evs -> path = input_path) /\
            (forall path bs, Ev_write path bs ∈ evs ->
               path = output_path /\
               exists d s0, Ok (data, s1) = Ok (d, s0) /\ modify_uf2_blocks d = Ok bs /\
                            modify_uf2_bytes d = Ok (concat bs))) as Hsub.
  { intros evs Hevs. split.
    - intros path Hin. eapply elem_of_prefix in Hin; [|exact Hevs].
      repeat (apply elem_of_cons in Hin as [Hin|Hin]; [try discriminate Hin|]).
      + congruence.
      + by apply elem_of_nil in Hin.
    - intros path bs Hin. eapply elem_of_prefix in Hin; [|exact Hevs].
      repeat (apply elem_of_cons in Hin as [Hin|Hin]; [try discriminate Hin|]).
      + injection Hin as -> ->. split; [done|]. by exists data, s1.
      + by apply elem_of_nil in Hin. }
  destruct (rt_write rt output_path blocks s1) as [s2|e];
    [destruct (rt_print rt added_line s2) as [s3|e]|]; cbn [fst snd].
  - destruct (Hsub _ (reflexivity _)) as [Hr Hw]. split; [exact Hr|]. split; [exact Hw|].
    intros s' Hend. exists data, s1, blocks. split; [done|]. split; [done|].
    by rewrite <- Hsummary.
  - destruct (Hsub [Ev_read input_path; Ev_write output_path blocks; Ev_print added_line])
      as [Hr Hw]; [by eexists|].
    split; [exact Hr|]. split; [exact Hw|]. discriminate.
  - destruct (Hsub [Ev_read input_path; Ev_write output_path blocks])
      as [Hr Hw]; [by eexists|].
    split; [exact Hr|]. split; [exact Hw|]. discriminate.
Qed.

(** X5 at a system that takes every write: a run on the one-frame image
    ends normally after the read, the write and the two prints. *)
Lemma modify_uf2_effect_witness :
  exists (s' : rt_state flat_fs) (blocks : list bytes),
    (run flat_fs (modify_uf2 "in.uf2" "out.uf2") state_a).2 = Ok (tt, s') /\
    modify_uf2_blocks stray_block_image = Ok blocks /\
    (run flat_fs (modify_uf2 "in.uf2" "out.uf2") state_a).1
    = [Ev_read "in.uf2"; Ev_write "out.uf2" blocks;
       Ev_print "Added 64 erase blocks to UF2";
       Ev_print "Original: 1 blocks, Modified: 65 blocks"].
Proof.
  assert (rt_read flat_fs "in.uf2" state_a = Ok (stray_block_image, state_a)) as Hread
    by (vm_compute; reflexivity).
  assert (exists s', (run flat_fs (modify_uf2 "in.uf2" "out.uf2") state_a).2 = Ok (tt, s'))
    as [s' Hend].
  { rewrite run_modify_uf2, Hread.
    rewrite modify_uf2_blocks_ok by (vm_compute; discriminate). cbn. eauto. }
  destruct (modify_uf2_effect flat_fs "in.uf2" "out.uf2" state_a) as (_ & _ & Hfull).
  destruct (Hfull s' Hend) as (data & s1 & blocks & Hread' & Hblocks & Hevs).
  assert (data = stray_block_image) as -> by congruence.
  exists s', blocks. split; [exact Hend|]. split; [exact Hblocks|exact Hevs].
Defined.

(** X6: on any operating system, a run of [modify_uf2] ends with an
    exception in exactly these ways: the read of [input_path] raises it;
    the bytes read have more whole frames than the 32-bit counter allows,
    which raises [struct.error] with nothing attempted but the read, so
    that [output_path] is not opened; the write of [output_path] raises
    it; or one of the two prints raises it. *)
Theorem modify_uf2_failure (rt : runtime) (input_path output_path : string)
    (s : rt_state rt) (e : exn) :
  (run rt (modify_uf2 input_path output_path) s).2 = Raise e <->
  rt_read rt input_path s = Raise e \/
  exists data s1,
    rt_read rt input_path s = Ok (data, s1) /\
    ((0xFFFFFFFF < Z.of_nat (length data / 512) + 64 /\ e = struct_error /\
      (run rt (modify_uf2 input_path output_path) s).1 = [Ev_read input_path]) \/
     (Z.of_nat (length data / 512) + 64 <= 0xFFFFFFFF /\
      (rt_write rt output_path (output_blocks data) s1 = Raise e \/
       exists s2,
         rt_write rt output_path (output_blocks data) s1 = Ok s2 /\
         (rt_print rt added_line s2 = Raise e \/
          exists s3,
            rt_print rt added_line s2 = Ok s3 /\
            rt_print rt (summary_line data) s3 = Raise e)))).
Proof.
  rewrite run_modify_uf2.
  destruct (rt_read rt input_path s) as [[data s1]|e0] eqn:Hread.
  2: { cbn [snd]. split; [intros He; left; congruence|].
       intros [He|(d & s0 & Hd & _)]; [congruence|discriminate Hd]. }
  destruct (decide (Z.of_nat (length data / 512) + 64 <= 0xFFFFFFFF)) as [Hfit|Hbig].
  - rewrite modify_uf2_blocks_ok by (by rewrite original_blocks_nat).
    pose (W := rt_write rt output_path (output_blocks data) s1 = Raise e \/
               (exists s2, rt_write rt output_path (output_blocks data) s1 = Ok s2 /\
                  (rt_print rt added_line s2 = Raise e \/
                   (exists s3, rt_print rt added_line s2 = Ok s3 /\
                      rt_print rt (summary_line data) s3 = Raise e)))).
    assert (forall P : Prop,
              (Ok (data, s1) = Raise e \/
               (exists d s0, Ok (data, s1) = Ok (d, s0) /\
                  ((0xFFFFFFFF < Z.of_nat (length d / 512) + 64 /\ e = struct_error /\ P) \/
                   (Z.of_nat (length d / 512) + 64 <= 0xFFFFFFFF /\
                    (rt_write rt output_path (output_blocks d) s0 = Raise e \/
                     (exists s2, rt_write rt output_path (output_blocks d) s0 = Ok s2 /\
                       (rt_print rt added_line s2 = Raise e \/
                        (exists s3, rt_print rt added_line s2 = Ok s3 /\
                          rt_print rt (summary_line d) s3 = Raise e))))))))
              <-> W) as Hall.
    { intros P. unfold W. split.
      - intros [Hr|(d & s0 & Hd & [(Hover & _)|(_ & Hrest)])]; [discriminate Hr| |];
          assert (d = data /\ s0 = s1) as [-> ->] by (split; congruence);
          [lia|exact Hrest].
      - intros Hrest. right. exists data, s1. split; [done|]. right. by split. }
    unfold W in Hall. clear W.
    destruct (rt_write rt output_path (output_blocks data) s1) as [s2|e1] eqn:Hwrite.
    + destruct (rt_print rt added_line s2) as [s3|e2] eqn:Hp1.
      * destruct (rt_print rt (summary_line data) s3) as [s4|e3] eqn:Hp2; cbn [fst snd].
        -- rewrite Hall. split; [discriminate|].
           intros [Hw|(t2 & Hw & [Hq|(t3 & Hq & Hq')])]; try discriminate.
           ++ assert (t2 = s2) as -> by congruence. congruence.
           ++ assert (t2 = s2) as -> by congruence.
              assert (t3 = s3) as -> by congruence. congruence.
        -- rewrite Hall. split.
           ++ intros He. right. exists s2. split; [done|]. right. exists s3.
              split; [done|congruence].
           ++ intros [Hw|(t2 & Hw & [Hq|(t3 & Hq & Hq')])]; try discriminate.
              ** assert (t2 = s2) as -> by congruence. congruence.
              ** assert (t2 = s2) as -> by congruence.
                 assert (t3 = s3) as -> by congruence. congruence.
      * cbn [fst snd]. rewrite Hall. split.
        -- intros He. right. exists s2. split; [done|]. left. congruence.
        -- intros [Hw|(t2 & Hw & [Hq|(t3 & Hq & Hq')])]; try discriminate.
           ++ assert (t2 = s2) as -> by congruence. congruence.
           ++ assert (t2 = s2) as -> by congruence. congruence.
    + cbn [fst snd]. rewrite Hall. split.
      * intros He. left. congruence.
      * intros [Hw|(t2 & Hw & _)]; [congruence|discriminate Hw].
  - rewrite modify_uf2_blocks_overflow by (rewrite original_blocks_nat; lia).
    cbn [fst snd]. split.
    + intros He. right. exists data, s1. split; [done|]. left.
      split; [lia|]. split; [congruence|done].
    + intros [Hr|(d & s0 & Hd & Hcases)]; [discriminate Hr|].
      assert (d = data) as -> by congruence.
      destruct Hcases as [(_ & -> & _)|(Hfit & _)]; [done|lia].
Qed.

(** X6 at a system that refuses every write: the run ends with the
    exception of the write. *)
Lemma modify_uf2_failure_witness :
  (run read_only_fs (modify_uf2 "fw.uf2" "out.uf2") state_b).2 = Raise PermissionError.
Proof.
  assert (rt_read read_only_fs "fw.uf2" state_b = Ok (stray_block_image, state_b)) as Hread
    by (vm_compute; reflexivity).
  assert (Z.of_nat (length stray_block_image / 512) + 64 <= 0xFFFFFFFF) as Hfit
    by (vm_compute; discriminate).
  apply (proj2 (modify_uf2_failure read_only_fs "fw.uf2" "out.uf2" state_b PermissionError)).
  right. exists stray_block_image, state_b. split; [exact Hread|].
  right. split; [exact Hfit|]. left. reflexivity.
Defined.

(** ** Invariants of the image *)

(** X7: when every whole frame of the input carries its position as its
    index, the output is renumbered: the block at position [i] has
    [block_index = i] and [block_count] equal to the number of blocks. *)
Theorem well_numbered_stays_numbered (data : bytes) :
  well_numbered data ->
  Z.of_nat (length data / 512) + 64 <= 0xFFFFFFFF ->
  exists blocks, modify_uf2_blocks data = Ok blocks /\ renumbered blocks.
Proof.
  intros Hnum Hbound. exists (output_blocks data).
  split; [apply modify_uf2_blocks_ok; by rewrite original_blocks_nat|].
  intros i f Hf. apply lookup_lt_Some in Hf as Hlt.
  rewrite length_output_blocks.
  destruct (output_blocks_position data i Hlt) as [Hi|(j & Hj & ->)].
  - rewrite output_blocks_original in Hf by done. apply (inj Some) in Hf; subst f.
    rewrite recounted_block_count by lia. split; [|lia].
    unfold block_index. rewrite recounted_unpack_ne by (unfold OFF_BLOCK_NO; lia).
    by apply Hnum.
  - rewrite output_blocks_erase in Hf by done. apply (inj Some) in Hf; subst f.
    rewrite erase_frame_block_index, erase_frame_block_count by lia. lia.
Qed.

(** The 100-block sample image is a sequence of 100 numbered frames. *)
Lemma frame_at_image100 (i : nat) :
  (i < 100)%nat ->
  frame_at image100 (Z.of_nat i)
  = erase_frame (0x10000000 + Z.of_nat i * 256) (Z.of_nat i) 100.
Proof.
  intros Hi. unfold image100. apply frame_at_concat.
  - apply Forall_forall. intros f Hf.
    apply list_elem_of_fmap in Hf as (j & -> & _). reflexivity.
  - rewrite list_lookup_fmap, lookup_range by lia. reflexivity.
Qed.

Lemma length_image100 : length image100 = (512 * 100)%nat.
Proof.
  unfold image100. rewrite (length_concat_uniform _ 512).
  - by rewrite length_map, length_range.
  - apply Forall_forall. intros f Hf.
    apply list_elem_of_fmap in Hf as (i & -> & _). reflexivity.
Qed.

Lemma image100_count : (length image100 / 512 = 100)%nat.
Proof. rewrite length_image100, Nat.mul_comm. by apply Nat.div_mul. Qed.

(** X7 at the 100-block image. *)
Lemma well_numbered_stays_numbered_witness :
  well_numbered image100 /\
  exists blocks, modify_uf2_blocks image100 = Ok blocks /\ renumbered blocks.
Proof.
  assert (well_numbered image100) as Hnum.
  { intros i Hi. rewrite image100_count in Hi. rewrite frame_at_image100 by done.
    rewrite erase_frame_block_index; lia. }
  assert (Z.of_nat (length image100 / 512) + 64 <= 0xFFFFFFFF) as Hbound
    by (rewrite image100_count; lia).
  split; [exact Hnum|].
  exact (well_numbered_stays_numbered image100 Hnum Hbound).
Defined.



(** ** The erased area *)

(** X9: the 64 appended blocks tile the user-script area
    [0x101FC000, 0x10200000), the last 16 KiB of the 2 MiB flash: none of
    them writes outside it, and every address of the area falls in the
    window of exactly one of them. *)
Theorem erase_blocks_tile_user_area (data : bytes) :
  Z.of_nat (length data / 512) + 64 <= 0xFFFFFFFF ->
  exists blocks,
    modify_uf2_blocks data = Ok blocks /\
    (forall (i : nat) (f : bytes), (i < 64)%nat ->
       blocks !! (length data / 512 + i)%nat = Some f ->
       0x101FC000 <= target_address f /\
       target_address f + payload_size f <= 0x10000000 + 2 * 1024 * 1024) /\
    (forall addr : Z, 0x101FC000 <= addr < 0x10200000 ->
       exists i : nat,
         (i < 64)%nat /\
         (exists f, blocks !! (length data / 512 + i)%nat = Some f /\
                    target_address f <= addr < target_address f + payload_size f) /\
         (forall (j : nat) (g : bytes), (j < 64)%nat ->
            blocks !! (length data / 512 + j)%nat = Some g ->
            target_address g <= addr < target_address g + payload_size g -> j = i)).
Proof.
  intros Hbound. exists (output_blocks data).
  split; [apply modify_uf2_blocks_ok; by rewrite original_blocks_nat|].
  assert (forall (i : nat) (f : bytes), (i < 64)%nat ->
            output_blocks data !! (length data / 512 + i)%nat = Some f ->
            target_address f = 0x101FC000 + Z.of_nat i * 256 /\ payload_size f = 256)
    as Hwindow.
  { intros i f Hi Hf. rewrite output_blocks_erase in Hf by done.
    apply (inj Some) in Hf; subst f.
    rewrite erase_frame_target_address
      by (unfold erase_base, USER_SCRIPT_OFFSET, BLOCK_SIZE; lia).
    split; [unfold erase_base, USER_SCRIPT_OFFSET, BLOCK_SIZE; lia|reflexivity]. }
  split.
  - intros i f Hi Hf. destruct (Hwindow i f Hi Hf) as [-> ->]. lia.
  - intros addr Haddr. exists (Z.to_nat ((addr - 0x101FC000) / 256)).
    assert (0 <= (addr - 0x101FC000) / 256 < 64) as Hq
      by (split; [apply Z.div_pos; lia|apply Z.div_lt_upper_bound; lia]).
    pose proof (Z.div_mod (addr - 0x101FC000) 256 ltac:(lia)) as Hdm.
    pose proof (Z.mod_pos_bound (addr - 0x101FC000) 256 ltac:(lia)) as Hm.
    split; [lia|]. split.
    + eexists. split; [apply output_blocks_erase; lia|].
      rewrite erase_frame_target_address
        by (unfold erase_base, USER_SCRIPT_OFFSET, BLOCK_SIZE; lia).
      rewrite erase_frame_payload_size.
      unfold erase_base, USER_SCRIPT_OFFSET, BLOCK_SIZE. lia.
    + intros j g Hj Hg Hin. destruct (Hwindow j g Hj Hg) as [Ht Hp].
      rewrite Ht, Hp in Hin. lia.
Qed.

(** X9 at the empty image and the last address of the flash. *)
Lemma erase_blocks_tile_user_area_witness :
  exists (blocks : list bytes) (i : nat) (f : bytes),
    (i < 64)%nat /\
    modify_uf2_blocks [] = Ok blocks /\
    blocks !! (length (@nil byte) / 512 + i)%nat = Some f /\
    target_address f <= 0x101FFFFF < target_address f + payload_size f.
Proof.
  assert (Z.of_nat (length (@nil byte) / 512) + 64 <= 0xFFFFFFFF) as Hbound
    by (vm_compute; discriminate).
  destruct (erase_blocks_tile_user_area [] Hbound) as (blocks & Hrun & _ & Hcover).
  assert (0x101FC000 <= 0x101FFFFF < 0x10200000) as Haddr by lia.
  destruct (Hcover 0x101FFFFF Haddr) as (i & Hi & (f & Hf & Hin) & _).
  exists blocks, i, f. split; [exact Hi|]. split; [exact Hrun|]. split; [exact Hf|exact Hin].
Defined.

(** X10: the appended blocks depend on the input only through its number
    of whole frames: two inputs with the same number of whole frames get
    the same 64 blocks, whatever their contents. *)
Theorem erase_blocks_ignore_contents (data data' : bytes) :
  (length data / 512 = length data' / 512)%nat ->
  Z.of_nat (length data / 512) + 64 <= 0xFFFFFFFF ->
  exists blocks blocks',
    modify_uf2_blocks data = Ok blocks /\ modify_uf2_blocks data' = Ok blocks' /\
    drop (length data / 512) blocks = drop (length data / 512) blocks' /\
    length (drop (length data / 512) blocks) = 64%nat.
Proof.
  intros Hsame Hbound. exists (output_blocks data), (output_blocks data').
  split; [apply modify_uf2_blocks_ok; by rewrite original_blocks_nat|].
  split; [apply modify_uf2_blocks_ok; by rewrite original_blocks_nat, <- Hsame|].
  assert (forall d : bytes,
            drop (length d / 512) (output_blocks d)
            = map (fun i => erase_frame (erase_base USER_SCRIPT_OFFSET + i * BLOCK_SIZE)
                               (Z.of_nat (length d / 512) + i)
                               (Z.of_nat (length d / 512) + 64)) (range 64)) as Hdrop.
  { intros d. unfold output_blocks. rewrite original_blocks_nat.
    rewrite drop_app_length'; [done|]. rewrite length_map, length_range. lia. }
  split.
  - rewrite Hdrop. rewrite Hsame at 1. by rewrite Hdrop, Hsame.
  - rewrite Hdrop. by rewrite length_map, length_range.
Qed.

(** X10 at the 513-byte image and its first frame. *)
Lemma erase_blocks_ignore_contents_witness :
  exists blocks blocks',
    modify_uf2_blocks dangling_image = Ok blocks /\
    modify_uf2_blocks stray_block_image = Ok blocks' /\
    drop 1 blocks = drop 1 blocks'.
Proof.
  assert (length dangling_image / 512 = length stray_block_image / 512)%nat as Hsame
    by reflexivity.
  assert (Z.of_nat (length dangling_image / 512) + 64 <= 0xFFFFFFFF) as Hbound
    by (vm_compute; discriminate).
  destruct (erase_blocks_ignore_contents dangling_image stray_block_image Hsame Hbound)
    as (blocks & blocks' & Hrun & Hrun' & Hdrop & _).
  exists blocks, blocks'. split; [exact Hrun|]. split; [exact Hrun'|exact Hdrop].
Defined.

(** ** Running the transform again *)

Lemma output_frame_count (data : bytes) :
  (length (concat (output_blocks data)) / 512 = length data / 512 + 64)%nat.
Proof. rewrite length_output_bytes, Nat.mul_comm. by apply Nat.div_mul. Qed.

Lemma frame_at_output (data : bytes) (i : nat) (f : bytes) :
  output_blocks data !! i = Some f ->
  frame_at (concat (output_blocks data)) (Z.of_nat i) = f.
Proof. apply frame_at_concat, output_blocks_uniform. Qed.

(** X11: the transform is not idempotent. Applied to its own output it
    appends 64 more blocks for the same addresses: the result has [k + 128]
    blocks; the blocks of the first run keep their index and get the count
    [k + 128]; the new blocks repeat their target addresses and payloads
    under the indices [k + 64 .. k + 127]. *)
Theorem second_run_appends_again (data : bytes) :
  Z.of_nat (length data / 512) + 128 <= 0xFFFFFFFF ->
  exists out blocks2,
    modify_uf2_bytes data = Ok out /\
    modify_uf2_blocks out = Ok blocks2 /\
    length blocks2 = (length data / 512 + 128)%nat /\
    forall i : nat, (i < 64)%nat ->
      exists old new,
        blocks2 !! (length data / 512 + i)%nat = Some old /\
        blocks2 !! (length data / 512 + 64 + i)%nat = Some new /\
        target_address new = target_address old /\
        payload new = payload old /\
        block_index old = Z.of_nat (length data / 512 + i) /\
        block_index new = Z.of_nat (length data / 512 + 64 + i) /\
        block_count old = Z.of_nat (length data / 512 + 128) /\
        block_count new = Z.of_nat (length data / 512 + 128).
Proof.
  intros Hbound.
  pose proof (output_frame_count data) as Hk.
  exists (concat (output_blocks data)), (output_blocks (concat (output_blocks data))).
  split; [apply modify_uf2_bytes_ok; lia|].
  split; [apply modify_uf2_blocks_ok; rewrite original_blocks_nat, Hk; lia|].
  split; [rewrite length_output_blocks, Hk; lia|].
  intros i Hi.
  pose proof (output_blocks_original (concat (output_blocks data))
                (length data / 512 + i) ltac:(lia)) as Hold.
  pose proof (output_blocks_erase (concat (output_blocks data)) i Hi) as Hnew.
  rewrite Hk in Hold, Hnew.
  pose proof (frame_at_output data _ _ (output_blocks_erase data i Hi)) as Hfirst.
  assert (0 <= Z.of_nat (length data / 512 + i)
          < Z.of_nat (length (concat (output_blocks data)) / 512)) as Hpos by lia.
  eexists; eexists. split; [exact Hold|]. split; [exact Hnew|].
  unfold target_address, payload, block_index.
  rewrite recounted_block_count by lia.
  rewrite !recounted_unpack_ne by (try done; unfold OFF_TARGET_ADDR, OFF_BLOCK_NO; lia).
  rewrite recounted_field_ne by (try done; unfold OFF_DATA; lia).
  rewrite Hfirst.
  change (unpack_from_I ?f OFF_TARGET_ADDR) with (target_address f).
  change (unpack_from_I ?f OFF_BLOCK_NO) with (block_index f).
  change (take 256 (drop OFF_DATA ?f)) with (payload f).
  rewrite !erase_frame_target_address
    by (unfold erase_base, USER_SCRIPT_OFFSET, BLOCK_SIZE; lia).
  rewrite !erase_frame_block_index, erase_frame_block_count by lia.
  rewrite !erase_frame_payload.
  repeat split; lia.
Qed.

(** X11 at the empty image: 64 blocks after one run, 128 after two. *)
Lemma second_run_appends_again_witness :
  exists out blocks2,
    modify_uf2_bytes [] = Ok out /\ modify_uf2_blocks out = Ok blocks2 /\
    length blocks2 = 128%nat.
Proof.
  assert (Z.of_nat (length (@nil byte) / 512) + 128 <= 0xFFFFFFFF) as Hbound
    by (vm_compute; discriminate).
  destruct (second_run_appends_again [] Hbound) as (out & blocks2 & Hrun & Hrun2 & Hlen & _).
  exists out, blocks2. split; [exact Hrun|]. split; [exact Hrun2|exact Hlen].
Defined.

(** ** The command line *)

(** X12: on any operating system, the script reads a file only when it
    has exactly two arguments, and then only the one named by the first;
    it writes a file only then, and only the one named by the second; it
    ends normally only as the run of [modify_uf2] on the two arguments
    does; with another number of arguments it attempts nothing but the
    print of the usage line, which names [sys.argv[0]], and once that is
    printed it exits with status 1. *)
Theorem main_effect (rt : runtime) (argv : list string) (s : rt_state rt) :
  (forall path : string, Ev_read path ∈ (run rt (main argv) s).1 ->
     length argv = 3%nat /\ argv !! 1%nat = Some path) /\
  (forall (path : string) (blocks : list bytes),
     Ev_write path blocks ∈ (run rt (main argv) s).1 ->
     length argv = 3%nat /\ argv !! 2%nat = Some path) /\
  (forall s' : rt_state rt, (run rt (main argv) s).2 = Ok (tt, s') ->
     exists prog input_path output_path,
       argv = [prog; input_path; output_path] /\
       run rt (main argv) s = run rt (modify_uf2 input_path output_path) s) /\
  (forall (prog : string) (rest : list string),
     argv = prog :: rest -> length rest <> 2%nat ->
     (run rt (main argv) s).1
     = [Ev_print ("Usage: " +:+ prog +:+ " <input.uf2> <output.uf2>")] /\
     forall s' : rt_state rt,
       rt_print rt ("Usage: " +:+ prog +:+ " <input.uf2> <output.uf2>") s = Ok s' ->
       (run rt (main argv) s).2 = Raise (SystemExit 1)).
Proof.
  assert (forall (prog : string) (rest : list string), length rest <> 2%nat ->
            run rt (main (prog :: rest)) s
            = ([Ev_print ("Usage: " +:+ prog +:+ " <input.uf2> <output.uf2>")],
               match rt_print rt ("Usage: " +:+ prog +:+ " <input.uf2> <output.uf2>") s with
               | Ok _ => Raise (SystemExit 1)
               | Raise e => Raise e
               end)) as Husage.
  { intros prog rest Hrest. unfold main.
    replace (length (prog :: rest) =? 3)%nat with false
      by (symmetry; apply Nat.eqb_neq; simpl; lia).
    cbn [negb lookup list_lookup run].
    by destruct (rt_print rt ("Usage: " +:+ prog +:+ " <input.uf2> <output.uf2>") s). }
  destruct (decide (length argv = 3%nat)) as [Hthree|Hother].
  - destruct argv as [|prog [|input_path [|output_path [|extra rest]]]]; try discriminate Hthree.
    change (main [prog; input_path; output_path]) with (modify_uf2 input_path output_path).
    destruct (modify_uf2_effect rt input_path output_path s) as (Hr & Hw & _).
    split; [intros path Hin; split; [done|]; by rewrite (Hr path Hin)|].
    split; [intros path blocks Hin; split; [done|];
            by destruct (Hw path blocks Hin) as [-> _]|].
    split; [intros s' _; by exists prog, input_path, output_path|].
    intros p r Heq Hlen. injection Heq as <- <-. done.
  - destruct argv as [|prog rest].
    + unfold main. cbn. split; [intros path Hin; by apply elem_of_nil in Hin|].
      split; [intros path blocks Hin; by apply elem_of_nil in Hin|].
      split; [discriminate|]. discriminate.
    + assert (length rest <> 2%nat) as Hrest by (simpl in Hother; lia).
      rewrite (Husage prog rest Hrest). cbn [fst snd].
      split; [intros path Hin; apply list_elem_of_singleton in Hin; discriminate Hin|].
      split; [intros path blocks Hin; apply list_elem_of_singleton in Hin; discriminate Hin|].
      split.
      * intros s' Hend.
        destruct (rt_print rt ("Usage: " +:+ prog +:+ " <input.uf2> <output.uf2>") s);
          discriminate Hend.
      * intros p r Heq Hlen. injection Heq as <- <-. split; [done|].
        intros s' Hp. by rewrite Hp.
Qed.

(** X12 at a call with one argument too many, on a system that refuses
    every write: the usage line is printed and the status is 1. *)
Lemma main_effect_witness :
  run read_only_fs
      (main ["add_uf2_erase_block.py"; "in.uf2"; "out.uf2"; "extra"]%string) state_a
  = ([Ev_print "Usage: add_uf2_erase_block.py <input.uf2> <output.uf2>"],
     Raise (SystemExit 1)).
Proof.
  assert (length ["in.uf2"; "out.uf2"; "extra"]%string <> 2%nat) as Hlen by discriminate.
  destruct (main_effect read_only_fs
              ["add_uf2_erase_block.py"; "in.uf2"; "out.uf2"; "extra"]%string state_a)
    as (_ & _ & _ & Husage).
  destruct (Husage _ _ eq_refl Hlen) as [Hevs Hexit].
  rewrite (surjective_pairing (run read_only_fs _ state_a)).
  rewrite Hevs, (Hexit _ eq_refl). reflexivity.
Defined.

(** * [bytecode_to_c_array] *)

Lemma fold_left_snoc {A B : Type} (g : A -> B) (xs : list A) (acc : list B) :
  fold_left (fun acc x => acc ++ [g x]) xs acc = acc ++ map g xs.
Proof.
  revert acc. induction xs as [|x xs IH]; intros acc; simpl.
  - by rewrite app_nil_r.
  - by rewrite IH, <- app_assoc.
Qed.

Lemma line_count_spec (bytecode : bytes) (j : nat) :
  (j < line_count bytecode)%nat <-> (12 * j < length bytecode)%nat.
Proof.
  unfold line_count.
  pose proof (Z.div_mod (Z.of_nat (length bytecode) + 11) 12 ltac:(lia)) as Hdm.
  pose proof (Z.mod_pos_bound (Z.of_nat (length bytecode) + 11) 12 ltac:(lia)) as Hm.
  assert (0 <= (Z.of_nat (length bytecode) + 11) / 12) by (apply Z.div_pos; lia).
  lia.
Qed.

Lemma bytecode_to_c_array_lines_shape (bytecode : bytes) (var_name : string) :
  bytecode_to_c_array_lines bytecode var_name
  = ["const unsigned char " +:+ var_name +:+ "[] = {"]
    ++ map (data_line bytecode) (seq 0 (line_count bytecode))
    ++ ["};";
        "const unsigned int " +:+ var_name +:+ "_len = "
          +:+ pretty (Z.of_nat (length bytecode)) +:+ ";"].
Proof.
  unfold bytecode_to_c_array_lines. cbv zeta.
  rewrite (fold_left_snoc
             (fun i => "  " +:+ String.concat ", "
                                  (map (fun b => "0x" +:+ format_02x b)
                                       (slice bytecode i (i + 12)))
                        +:+ (if i + 12 <? Z.of_nat (length bytecode) then "," else ""))).
  unfold range_step. rewrite map_map.
  replace (Z.to_nat ((Z.of_nat (length bytecode) - 0 + 12 - 1) / 12))
    with (line_count bytecode) by (unfold line_count; do 2 f_equal; lia).
  cbn [app]. rewrite <- !app_assoc. cbn [app]. do 2 f_equal.
  apply map_ext. intros j. unfold data_line, chunk_at, slice.
  replace (Z.to_nat (0 + Z.of_nat j * 12 + 12 - (0 + Z.of_nat j * 12))) with 12%nat by lia.
  replace (Z.to_nat (0 + Z.of_nat j * 12)) with (12 * j)%nat by lia.
  replace (0 + Z.of_nat j * 12 + 12) with (Z.of_nat j * 12 + 12) by lia.
  done.
Qed.

Lemma data_lines_shape (bytecode : bytes) (var_name : string) :
  data_lines (bytecode_to_c_array_lines bytecode var_name)
  = map (data_line bytecode) (seq 0 (line_count bytecode)).
Proof.
  rewrite bytecode_to_c_array_lines_shape. unfold data_lines.
  cbn [app drop length]. rewrite length_app, length_map, length_seq. cbn [length].
  replace (S (line_count bytecode + 2) - 3)%nat
    with (length (map (data_line bytecode) (seq 0 (line_count bytecode))))
    by (rewrite length_map, length_seq; lia).
  by rewrite drop_0, take_app_length.
Qed.

(** The chunks put the byte string back together. *)
Lemma concat_chunks (bytecode : bytes) :
  concat (map (chunk_at bytecode) (seq 0 (line_count bytecode))) = bytecode.
Proof.
  assert (forall m : nat,
            concat (map (chunk_at bytecode) (seq 0 m)) = take (12 * m) bytecode) as Hm.
  { induction m as [|m IH]; [done|].
    rewrite seq_S, map_app, concat_app, IH. cbn [map concat Nat.add].
    rewrite app_nil_r. unfold chunk_at.
    replace (12 * S m)%nat with (12 * m + 12)%nat by lia.
    apply take_take_drop. }
  rewrite Hm. apply take_ge.
  destruct (decide (length bytecode <= 12 * line_count bytecode)%nat) as [|Hlt]; [done|].
  assert (line_count bytecode < line_count bytecode)%nat; [|lia].
  apply line_count_spec. lia.
Qed.

(** *** Reading the entries back *)

Lemma hex_digits_round_trip (b : byte) :
  unhex_char (hex_char (Byte.to_N b / 16)) = Some (Byte.to_N b / 16)%N /\
  unhex_char (hex_char (Byte.to_N b mod 16)) = Some (Byte.to_N b mod 16)%N /\
  Byte.of_N (16 * (Byte.to_N b / 16) + Byte.to_N b mod 16) = Some b.
Proof. destruct b; repeat split; vm_compute; reflexivity. Qed.

Lemma parse_entries_raw (h l : ascii) (hi lo : N) (b : byte) (rest : string) :
  unhex_char h = Some hi -> unhex_char l = Some lo ->
  Byte.of_N (16 * hi + lo) = Some b ->
  parse_entries (String "0" (String "x" (String h (String l rest))))
  = match rest with
    | EmptyString => Some [b]
    | String "," EmptyString => Some [b]
    | String "," (String " " more) =>
        match parse_entries more with
        | Some bs => Some (b :: bs)
        | None => None
        end
    | _ => None
    end%char.
Proof.
  intros Hh Hl Hb. cbn [parse_entries]. rewrite Hh, Hl, Hb. reflexivity.
Qed.

Lemma parse_entries_entry (b : byte) (rest : string) :
  parse_entries (("0x" +:+ format_02x b) +:+ rest)
  = match rest with
    | EmptyString => Some [b]
    | String "," EmptyString => Some [b]
    | String "," (String " " more) =>
        match parse_entries more with
        | Some bs => Some (b :: bs)
        | None => None
        end
    | _ => None
    end%char.
Proof.
  destruct (hex_digits_round_trip b) as (Hhi & Hlo & Hb).
  change (("0x" +:+ format_02x b) +:+ rest)
    with (String "0" (String "x" (String (hex_char (Byte.to_N b / 16))
            (String (hex_char (Byte.to_N b mod 16)) rest)))).
  by apply (parse_entries_raw _ _ _ _ b rest Hhi Hlo).
Qed.

Lemma parse_entries_joined (chunk : bytes) (comma : bool) :
  chunk <> [] ->
  parse_entries (String.concat ", " (map (fun b => "0x" +:+ format_02x b) chunk)
                 +:+ (if comma then "," else ""))
  = Some chunk.
Proof.
  induction chunk as [|b rest IH]; [done|]. intros _.
  destruct rest as [|b' rest].
  - cbn [map String.concat]. rewrite parse_entries_entry. by destruct comma.
  - change (parse_entries
              (("0x" +:+ format_02x b)
               +:+ String "," (String " "
                     (String.concat ", " (map (fun b => "0x" +:+ format_02x b) (b' :: rest))
                      +:+ (if comma then "," else ""))))
            = Some (b :: b' :: rest)).
    rewrite parse_entries_entry, IH by done. reflexivity.
Qed.

Lemma chunk_at_nonempty (bytecode : bytes) (j : nat) :
  (j < line_count bytecode)%nat ->
  chunk_at bytecode j <> [] /\ (0 < length (chunk_at bytecode j) <= 12)%nat.
Proof.
  intros Hj. apply line_count_spec in Hj.
  assert (0 < length (chunk_at bytecode j) <= 12)%nat as Hlen
    by (unfold chunk_at; rewrite length_take, length_drop; lia).
  split; [|done]. intros Hnil. rewrite Hnil in Hlen. simpl in Hlen. lia.
Qed.

Lemma parse_data_line_data_line (bytecode : bytes) (j : nat) :
  (j < line_count bytecode)%nat ->
  parse_data_line (data_line bytecode j) = Some (chunk_at bytecode j).
Proof.
  intros Hj. unfold data_line.
  change (parse_data_line ("  " +:+ ?s)) with (parse_entries s).
  apply parse_entries_joined. by apply chunk_at_nonempty.
Qed.

(** X13: the text written for a byte string holds exactly its bytes: the
    data lines (all lines but the first and the last two) read back, entry
    by entry, as chunks of 1 to 12 bytes whose concatenation is the byte
    string. *)
Theorem c_array_round_trip (bytecode : bytes) (var_name : string) :
  exists chunks : list bytes,
    mapM parse_data_line (data_lines (bytecode_to_c_array_lines bytecode var_name))
    = Some chunks /\
    concat chunks = bytecode /\
    Forall (fun chunk => (0 < length chunk <= 12)%nat) chunks.
Proof.
  exists (map (chunk_at bytecode) (seq 0 (line_count bytecode))).
  split; [|split].
  - apply mapM_Some_2. rewrite data_lines_shape.
    apply Forall2_fmap, Forall_Forall2_diag, Forall_forall.
    intros j Hj. apply elem_of_seq in Hj. apply parse_data_line_data_line. lia.
  - apply concat_chunks.
  - apply Forall_forall. intros c Hc.
    apply list_elem_of_fmap in Hc as (j & -> & Hj). apply elem_of_seq in Hj.
    apply chunk_at_nonempty. lia.
Qed.

(** *** Commas *)

Lemma last_char_append (s t : string) :
  t <> EmptyString -> last_char (s +:+ t) = last_char t.
Proof.
  intros Ht. induction s as [|c s IH]; [done|].
  rewrite <- IH. change (String c s +:+ t) with (String c (s +:+ t)).
  destruct (s +:+ t) eqn:Hst; [|reflexivity].
  destruct s as [|c' s']; [by change ("" +:+ t) with t in Hst|].
  change (String c' s' +:+ t) with (String c' (s' +:+ t)) in Hst. discriminate Hst.
Qed.

Lemma append_nonempty_r (s t : string) : t <> EmptyString -> s +:+ t <> EmptyString.
Proof.
  intros Ht. destruct s as [|c s]; [by change ("" +:+ t) with t|].
  change (String c s +:+ t) with (String c (s +:+ t)). discriminate.
Qed.

Lemma append_empty (s : string) : s +:+ "" = s.
Proof.
  induction s as [|c s IH]; [done|].
  change (String c s +:+ "") with (String c (s +:+ "")). by rewrite IH.
Qed.

Lemma last_char_entry (b : byte) :
  exists c : ascii, last_char ("0x" +:+ format_02x b) = Some c /\ c <> ","%char.
Proof.
  exists (hex_char (Byte.to_N b mod 16)). split; [reflexivity|].
  destruct b; vm_compute; discriminate.
Qed.

Lemma last_char_joined (chunk : bytes) :
  chunk <> [] ->
  exists c : ascii,
    last_char (String.concat ", " (map (fun b => "0x" +:+ format_02x b) chunk)) = Some c /\
    c <> ","%char.
Proof.
  induction chunk as [|b rest IH]; [done|]. intros _.
  destruct rest as [|b' rest]; [apply last_char_entry|].
  destruct IH as (c & Hc & Hne); [done|]. exists c. split; [|done].
  change (String.concat ", " (map (fun b => "0x" +:+ format_02x b) (b :: b' :: rest)))
    with (("0x" +:+ format_02x b) +:+ ", "
          +:+ String.concat ", " (map (fun b => "0x" +:+ format_02x b) (b' :: rest))).
  rewrite last_char_append by discriminate.
  rewrite last_char_append; [done|]. intros Hnil. rewrite Hnil in Hc. discriminate Hc.
Qed.

(** X14: the text has three lines more than data lines: the opening line,
    the closing brace and the length line; there is one data line per 12
    bytes, rounded up, so none for the empty byte string; every data line
    but the last ends with a comma and the last one does not. *)
Theorem c_array_lines_and_commas (bytecode : bytes) (var_name : string) :
  let lines := bytecode_to_c_array_lines bytecode var_name in
  Z.of_nat (length lines) = 3 + (Z.of_nat (length bytecode) + 11) / 12 /\
  Z.of_nat (length (data_lines lines)) = (Z.of_nat (length bytecode) + 11) / 12 /\
  (bytecode = [] -> data_lines lines = []) /\
  forall (j : nat) (line : string), data_lines lines !! j = Some line ->
    (last_char line = Some ","%char <-> (j + 1 < length (data_lines lines))%nat).
Proof.
  cbv zeta. rewrite data_lines_shape, length_map, length_seq.
  assert (Z.of_nat (line_count bytecode) = (Z.of_nat (length bytecode) + 11) / 12) as Hcount.
  { unfold line_count. rewrite Z2Nat.id; [done|]. apply Z.div_pos; lia. }
  split.
  { rewrite bytecode_to_c_array_lines_shape.
    rewrite !length_app, length_map, length_seq. cbn [length]. lia. }
  split; [done|]. split.
  { intros ->. reflexivity. }
  intros j line Hline.
  apply lookup_lt_Some in Hline as Hj. rewrite length_map, length_seq in Hj.
  rewrite list_lookup_fmap, lookup_seq_lt in Hline by done.
  apply (inj Some) in Hline. subst line. cbn [Nat.add].
  assert ((j + 1 < line_count bytecode)%nat
          <-> Z.of_nat j * 12 + 12 < Z.of_nat (length bytecode)) as Hnext.
  { rewrite (line_count_spec bytecode (j + 1)). lia. }
  unfold data_line.
  destruct (Z.of_nat j * 12 + 12 <? Z.of_nat (length bytecode)) eqn:Hlt.
  - apply Z.ltb_lt in Hlt.
    rewrite last_char_append by (apply append_nonempty_r; discriminate).
    rewrite last_char_append by discriminate.
    split; [intros _; by apply Hnext|done].
  - apply Z.ltb_ge in Hlt. rewrite append_empty.
    destruct (last_char_joined (chunk_at bytecode j)) as (c & Hc & Hne);
      [by apply chunk_at_nonempty|].
    rewrite last_char_append by (intros Hnil; rewrite Hnil in Hc; discriminate Hc).
    rewrite Hc. split; [intros Heq; congruence|]. intros Hmore. apply Hnext in Hmore. lia.
Qed.

(** * Instances *)

(** X1 at an address that does not fit 32 bits. *)
Lemma create_erase_block_result_witness :
  create_erase_block 0x100000000 0 64 = Raise struct_error.
Proof.
  destruct (create_erase_block 0x100000000 0 64) as [f|e] eqn:Hrun.
  - exfalso.
    destruct (create_erase_block_result 0x100000000 0 64) as [[_ Hin] _].
    destruct Hin as [[_ Hhigh] _]; [by exists f|]. lia.
  - f_equal. exact (proj2 (create_erase_block_result 0x100000000 0 64) e Hrun).
Defined.

(** X4 at the empty byte sequence. *)
Lemma modify_uf2_bytes_result_witness :
  exists out, modify_uf2_bytes [] = Ok out.
Proof.
  assert (Z.of_nat (length (@nil byte) / 512) + 64 <= 0xFFFFFFFF) as Hbound
    by (vm_compute; discriminate).
  exact (proj1 (proj1 (modify_uf2_bytes_result [])) Hbound).
Defined.

(** X13 at a two-byte string. *)
Lemma c_array_round_trip_witness :
  exists chunks : list bytes,
    mapM parse_data_line (data_lines (bytecode_to_c_array_lines [x01; xff] "blob"))
    = Some chunks /\ concat chunks = [x01; xff].
Proof.
  destruct (c_array_round_trip [x01; xff] "blob") as (chunks & Hparse & Hcat & _).
  exists chunks. split; [exact Hparse|exact Hcat].
Defined.

(** X14 at the empty byte string: three lines, none of them data. *)
Lemma c_array_lines_and_commas_witness :
  Z.of_nat (length (bytecode_to_c_array_lines [] "blob")) = 3 /\
  data_lines (bytecode_to_c_array_lines [] "blob") = [].
Proof.
  destruct (c_array_lines_and_commas [] "blob") as (Hlen & _ & Hnone & _).
  split; [exact Hlen|exact (Hnone eq_refl)].
Defined.
